(** * WebGLCanvas: a shallow embedding of [components/WebGLCanvas.tsx]

    The component draws one red triangle through the WebGL API and moves its
    top vertex with the mouse.  The embedding keeps the source's functions
    ([loadShader], [initShaderProgram], [initBuffers], [drawScene],
    [handleMouseMove], the mount effect and its cleanup) as Rocq functions in
    a small state-and-trace monad: every call that the source makes on the
    graphics context, the console or the canvas element is recorded, in
    order, and the answers of the graphics driver are read from a record of
    responses that stands for the [gl] object. *)

From Stdlib Require Import ZArith List String Bool Lia.
From Stdlib Require Import PrimFloat Uint63 SpecFloat FloatOps FloatAxioms.
Import ListNotations.

Set Implicit Arguments.

(** ** Numbers

    Every number of the source is an ECMAScript [number], an IEEE 754
    double.  The functions are written once over the operations the source
    uses, so that what does not depend on the arithmetic is proved for any
    number type; [binary64] below is the double of the language. *)

Class JSNumber (num : Type) : Type := {
  lit : Z -> num;                 (* integer literals: 0.0, 1.0, 2, -1.0, 640 *)
  sub : num -> num -> num;        (* a - b *)
  mul : num -> num -> num;        (* a * b *)
  div : num -> num -> num;        (* a / b *)
  num_eq : num -> num -> bool     (* a == b *)
}.

Definition f64_lit (z : Z) : float :=
  match z with
  | Z0 => PrimFloat.zero
  | Zpos _ => PrimFloat.of_uint63 (Uint63.of_Z z)
  | Zneg p => PrimFloat.opp (PrimFloat.of_uint63 (Uint63.of_Z (Zpos p)))
  end.

#[export] Instance binary64 : JSNumber float := {|
  lit := f64_lit;
  sub := PrimFloat.sub;
  mul := PrimFloat.mul;
  div := PrimFloat.div;
  num_eq := PrimFloat.eqb
|}.

(** ** The objects of the host: handles, enumerants, the canvas *)

Inductive WebGLShader := ShaderHandle (id : nat).
Inductive WebGLProgram := ProgramHandle (id : nat).
Inductive WebGLBuffer := BufferHandle (id : nat).
Inductive WebGLUniformLocation := UniformHandle (id : nat).

Inductive GLenum :=
| VERTEX_SHADER | FRAGMENT_SHADER
| COMPILE_STATUS | LINK_STATUS
| ARRAY_BUFFER | STATIC_DRAW
| COLOR_BUFFER_BIT
| FLOAT
| TRIANGLES.

(** The [gl] object, as far as the source reads answers from it: what each
    creating or querying call returns.  [None] is the [null] of the API. *)
Record WebGLRenderingContext := {
  gl_createShader : GLenum -> option WebGLShader;
  gl_getShaderParameter : WebGLShader -> GLenum -> bool;
  gl_getShaderInfoLog : WebGLShader -> option string;
  gl_createProgram : option WebGLProgram;
  gl_getProgramParameter : WebGLProgram -> GLenum -> bool;
  gl_getProgramInfoLog : WebGLProgram -> option string;
  gl_getAttribLocation : WebGLProgram -> string -> Z;
  gl_getUniformLocation : WebGLProgram -> string -> option WebGLUniformLocation;
  gl_createBuffer : option WebGLBuffer
}.

(** The canvas element: its pixel size (unsigned integer attributes) and the
    answer of [getContext("webgl")]. *)
Record HTMLCanvasElement := {
  width : Z;
  height : Z;
  canvas_getContext : string -> option WebGLRenderingContext
}.

Record ProgramInfo := {
  program : WebGLProgram;
  attribLocations_vertexPosition : Z;
  uniformLocations_topVertex : option WebGLUniformLocation
}.

Record Buffers := { position : option WebGLBuffer }.

Section Component.

Context {num : Type} {NUM : JSNumber num}.

Record Vec2 := { x : num; y : num }.

Record MouseEvent := { clientX : num; clientY : num }.
Record DOMRect := { left : num; top : num }.

(** ** Calls

    One constructor per method of the context, the console and the canvas
    that can be called, with its arguments.  [deleteProgram] and
    [deleteBuffer] are the deletion calls of the API for the two other kinds
    of handle. *)
Inductive Call :=
| getContext (contextId : string)
| console_error (args : list (option string))
| createShader (type : GLenum)
| shaderSource (shader : WebGLShader) (source : string)
| compileShader (shader : WebGLShader)
| getShaderParameter (shader : WebGLShader) (pname : GLenum)
| getShaderInfoLog (shader : WebGLShader)
| deleteShader (shader : WebGLShader)
| createProgram
| attachShader (prog : WebGLProgram) (shader : WebGLShader)
| linkProgram (prog : WebGLProgram)
| getProgramParameter (prog : WebGLProgram) (pname : GLenum)
| getProgramInfoLog (prog : WebGLProgram)
| deleteProgram (prog : WebGLProgram)
| getAttribLocation (prog : WebGLProgram) (name : string)
| getUniformLocation (prog : WebGLProgram) (name : string)
| createBuffer
| bindBuffer (target : GLenum) (buffer : option WebGLBuffer)
| bufferData (target : GLenum) (data : list num) (usage : GLenum)
| deleteBuffer (buffer : WebGLBuffer)
| clearColor (r g b a : num)
| clear (mask : GLenum)
| useProgram (prog : WebGLProgram)
| vertexAttribPointer (index : Z) (size : Z) (type : GLenum)
                      (normalized : bool) (stride : Z) (offset : Z)
| enableVertexAttribArray (index : Z)
| uniform2f (location : option WebGLUniformLocation) (ux uy : num)
| drawArrays (mode : GLenum) (first : Z) (count : Z)
| getBoundingClientRect
| addEventListener (type : string) (listener : nat)
| removeEventListener (type : string) (listener : nat).

(** ** State

    What the effect closes over when it builds [handleMouseMove]; [closure]
    is the identity of the function object. *)
Record Handler := {
  closure : nat;
  h_canvas : HTMLCanvasElement;
  h_gl : WebGLRenderingContext;
  h_programInfo : ProgramInfo;
  h_buffers : Buffers
}.

Record World := {
  topVertexRef : Vec2;                      (* topVertexRef.current *)
  listeners : list (string * Handler);      (* listeners of the canvas *)
  closures : nat                            (* function objects made so far *)
}.

(** ** The monad: a state transformer that also yields the calls it made *)

Definition M (A : Type) : Type := World -> A * World * list Call.

Definition ret {A} (a : A) : M A := fun w => (a, w, []).

Definition bind {A B} (m : M A) (k : A -> M B) : M B :=
  fun w =>
    let '(a, w1, t1) := m w in
    let '(b, w2, t2) := k a w1 in
    (b, w2, t1 ++ t2).

Definition call (c : Call) : M unit := fun w => (tt, w, [c]).
Definition get : M World := fun w => (w, w, []).

Definition value {A} (r : A * World * list Call) : A := fst (fst r).
Definition world {A} (r : A * World * list Call) : World := snd (fst r).
Definition trace {A} (r : A * World * list Call) : list Call := snd r.

End Component.

Arguments Vec2 num : clear implicits.
Arguments MouseEvent num : clear implicits.
Arguments DOMRect num : clear implicits.
Arguments Call num : clear implicits.
Arguments World num : clear implicits.
Arguments M num A : clear implicits.

Declare Scope gl_scope.
Delimit Scope gl_scope with gl.
Notation "x <- m ;; k" := (bind m (fun x => k))
  (at level 61, m at next level, right associativity) : gl_scope.
Notation "m ;; k" := (bind m (fun _ => k))
  (at level 61, right associativity) : gl_scope.

(** ** The shader pair

    The two GLSL sources, as the effect hands them to the driver, and what
    their [main] functions compute.  A [vec2] is read through the
    components [s], [t]; a [vec4] through [x], [y], [z], [w]. *)
Module GLSL.

Definition vsSource : string := "
      attribute vec4 aVertexPosition;
      uniform vec2 uTopVertex;
      void main(void) {
        if (aVertexPosition.y == 1.0) {
          gl_Position = vec4(uTopVertex, 0.0, 1.0);
        } else {
          gl_Position = aVertexPosition;
        }
      }
    ".

Definition fsSource : string := "
      void main(void) {
        gl_FragColor = vec4(1.0, 0.0, 0.0, 1.0); // Red color
      }
    ".

Section Stages.

Context {num : Type} {NUM : JSNumber num}.

Record vec2 := { s : num; t : num }.
Record vec4 := { x : num; y : num; z : num; w : num }.

(** [vec4(v, c, d)]: the constructor that extends a [vec2]. *)
Definition vec4_of (v : vec2) (c d : num) : vec4 :=
  {| x := s v; y := t v; z := c; w := d |}.

(** The vertex stage: the value assigned to [gl_Position]. *)
Definition vertex_main (aVertexPosition : vec4) (uTopVertex : vec2) : vec4 :=
  if num_eq (y aVertexPosition) (lit 1)
  then vec4_of uTopVertex (lit 0) (lit 1)
  else aVertexPosition.

(** The fragment stage: the value assigned to [gl_FragColor]. *)
Definition fragment_main : vec4 :=
  {| x := lit 1; y := lit 0; z := lit 0; w := lit 1 |}.

End Stages.

Arguments vec2 num : clear implicits.
Arguments vec4 num : clear implicits.

End GLSL.

(** ** The functions of the component *)

Section Functions.

Context {num : Type} {NUM : JSNumber num}.

Local Open Scope gl_scope.
Local Open Scope string_scope.

Local Abbreviation M := (M num).
Local Abbreviation World := (World num).

Definition loadShader (gl : WebGLRenderingContext) (type : GLenum)
    (source : string) : M (option WebGLShader) :=
  call (createShader type) ;;
  match gl_createShader gl type with
  | None => ret None
  | Some shader =>
      call (shaderSource shader source) ;;
      call (compileShader shader) ;;
      call (getShaderParameter shader COMPILE_STATUS) ;;
      if negb (gl_getShaderParameter gl shader COMPILE_STATUS) then
        call (getShaderInfoLog shader) ;;
        call (console_error [Some "An error occurred compiling the shaders:";
                             gl_getShaderInfoLog gl shader]) ;;
        call (deleteShader shader) ;;
        ret None
      else ret (Some shader)
  end.

Definition initShaderProgram (gl : WebGLRenderingContext)
    (vsSource fsSource : string) : M (option WebGLProgram) :=
  vertexShader <- loadShader gl VERTEX_SHADER vsSource ;;
  fragmentShader <- loadShader gl FRAGMENT_SHADER fsSource ;;
  match vertexShader, fragmentShader with
  | Some vertexShader, Some fragmentShader =>
      call createProgram ;;
      match gl_createProgram gl with
      | None => ret None
      | Some shaderProgram =>
          call (attachShader shaderProgram vertexShader) ;;
          call (attachShader shaderProgram fragmentShader) ;;
          call (linkProgram shaderProgram) ;;
          call (getProgramParameter shaderProgram LINK_STATUS) ;;
          if negb (gl_getProgramParameter gl shaderProgram LINK_STATUS) then
            call (getProgramInfoLog shaderProgram) ;;
            call (console_error [Some "Unable to initialize the shader program:";
                                 gl_getProgramInfoLog gl shaderProgram]) ;;
            ret None
          else ret (Some shaderProgram)
      end
  | _, _ => ret None
  end.

(** The triangle: top, bottom left, bottom right. *)
Definition positions : list num :=
  [lit 0; lit 1;
   lit (-1); lit (-1);
   lit 1; lit (-1)].

Definition initBuffers (gl : WebGLRenderingContext) : M Buffers :=
  call createBuffer ;;
  let positionBuffer := gl_createBuffer gl in
  call (bindBuffer ARRAY_BUFFER positionBuffer) ;;
  call (bufferData ARRAY_BUFFER positions STATIC_DRAW) ;;
  ret {| position := positionBuffer |}.

Definition drawScene (gl : WebGLRenderingContext) (programInfo : ProgramInfo)
    (buffers : Buffers) (topVertex : Vec2 num) : M unit :=
  call (clearColor (lit 0) (lit 0) (lit 0) (lit 1)) ;;
  call (clear COLOR_BUFFER_BIT) ;;
  call (useProgram (program programInfo)) ;;
  call (bindBuffer ARRAY_BUFFER (position buffers)) ;;
  call (vertexAttribPointer (attribLocations_vertexPosition programInfo)
                            2 FLOAT false 0 0) ;;
  call (enableVertexAttribArray (attribLocations_vertexPosition programInfo)) ;;
  call (uniform2f (uniformLocations_topVertex programInfo)
                  (x topVertex) (y topVertex)) ;;
  call (drawArrays TRIANGLES 0 3).

(** Assignment to [topVertexRef.current]. *)
Definition set_topVertexRef (v : Vec2 num) : M unit :=
  fun w => (tt, {| topVertexRef := v; listeners := listeners w;
                   closures := closures w |}, []).

(** [handleMouseMove], applied to what it closes over, the event, and the
    rectangle that [canvas.getBoundingClientRect()] answers at that time. *)
Definition handleMouseMove (h : Handler) (event : MouseEvent num)
    (bounding : DOMRect num) : M unit :=
  let canvas := h_canvas h in
  call getBoundingClientRect ;;
  let rect := bounding in
  let x := sub (mul (div (sub (clientX event) (left rect))
                         (lit (width canvas))) (lit 2)) (lit 1) in
  let y := sub (lit 1) (mul (div (sub (clientY event) (top rect))
                                 (lit (height canvas))) (lit 2)) in
  set_topVertexRef {| x := x; y := y |} ;;
  w <- get ;;
  drawScene (h_gl h) (h_programInfo h) (h_buffers h) (topVertexRef w).

(** Evaluating the arrow function makes a new function object. *)
Definition new_closure (canvas : HTMLCanvasElement)
    (gl : WebGLRenderingContext) (programInfo : ProgramInfo)
    (buffers : Buffers) : M Handler :=
  fun w =>
    ({| closure := closures w; h_canvas := canvas; h_gl := gl;
        h_programInfo := programInfo; h_buffers := buffers |},
     {| topVertexRef := topVertexRef w; listeners := listeners w;
        closures := S (closures w) |}, []).

(** Two registrations are the same when the event type and the function
    object are. *)
Definition same_listener (type : string) (h : Handler)
    (l : string * Handler) : bool :=
  String.eqb type (fst l) && Nat.eqb (closure h) (closure (snd l)).

Definition set_listeners (ls : list (string * Handler)) : M unit :=
  fun w => (tt, {| topVertexRef := topVertexRef w; listeners := ls;
                   closures := closures w |}, []).

(** [canvas.addEventListener(type, h)]: appended unless already there. *)
Definition canvas_addEventListener (type : string) (h : Handler) : M unit :=
  call (addEventListener type (closure h)) ;;
  w <- get ;;
  if existsb (same_listener type h) (listeners w) then ret tt
  else set_listeners (listeners w ++ [(type, h)])%list.

(** [canvas.removeEventListener(type, h)]. *)
Definition canvas_removeEventListener (type : string) (h : Handler) : M unit :=
  call (removeEventListener type (closure h)) ;;
  w <- get ;;
  set_listeners (filter (fun l => negb (same_listener type h l)) (listeners w)).

(** What the effect returns: nothing, or the cleanup that closes over
    [canvas] and [handleMouseMove]. *)
Inductive Cleanup :=
| no_cleanup
| cleanup (handleMouseMove : Handler).

(** The body of [useEffect], run once when the component mounts;
    [canvasRef_current] is the element the ref holds at that time. *)
Definition effect (canvasRef_current : option HTMLCanvasElement) : M Cleanup :=
  match canvasRef_current with
  | None => ret no_cleanup
  | Some canvas =>
      call (getContext "webgl") ;;
      match canvas_getContext canvas "webgl" with
      | None =>
          call (console_error [Some "WebGL isn't available"]) ;;
          ret no_cleanup
      | Some gl =>
          shaderProgram <- initShaderProgram gl GLSL.vsSource GLSL.fsSource ;;
          match shaderProgram with
          | None => ret no_cleanup
          | Some shaderProgram =>
              call (getAttribLocation shaderProgram "aVertexPosition") ;;
              call (getUniformLocation shaderProgram "uTopVertex") ;;
              let programInfo :=
                {| program := shaderProgram;
                   attribLocations_vertexPosition :=
                     gl_getAttribLocation gl shaderProgram "aVertexPosition";
                   uniformLocations_topVertex :=
                     gl_getUniformLocation gl shaderProgram "uTopVertex" |} in
              buffers <- initBuffers gl ;;
              w <- get ;;
              drawScene gl programInfo buffers (topVertexRef w) ;;
              handleMouseMove <- new_closure canvas gl programInfo buffers ;;
              canvas_addEventListener "mousemove" handleMouseMove ;;
              ret (cleanup handleMouseMove)
          end
      end
  end.

(** Running what the effect returned, when the component unmounts. *)
Definition run_cleanup (c : Cleanup) : M unit :=
  match c with
  | no_cleanup => ret tt
  | cleanup handleMouseMove =>
      canvas_removeEventListener "mousemove" handleMouseMove
  end.

(** The element the component renders, and the state of a new instance. *)
Definition rendered_canvas
    (getContext : string -> option WebGLRenderingContext) : HTMLCanvasElement :=
  {| width := 640; height := 480; canvas_getContext := getContext |}.

Definition initial_world : World :=
  {| topVertexRef := {| x := lit 0; y := lit 1 |};
     listeners := [];
     closures := 0 |}.

(** ** Delivery of pointer events by the host *)

(** One [mousemove] event on the canvas: its listeners run in order. *)
Fixpoint run_listeners (ls : list (string * Handler)) (event : MouseEvent num)
    (bounding : DOMRect num) : M unit :=
  match ls with
  | [] => ret tt
  | l :: rest =>
      (if String.eqb (fst l) "mousemove"
       then handleMouseMove (snd l) event bounding
       else ret tt) ;;
      run_listeners rest event bounding
  end.

Definition dispatch (e : MouseEvent num * DOMRect num) : M unit :=
  w <- get ;;
  run_listeners (listeners w) (fst e) (snd e).

Fixpoint dispatch_all (es : list (MouseEvent num * DOMRect num)) : M unit :=
  match es with
  | [] => ret tt
  | e :: rest => dispatch e ;; dispatch_all rest
  end.

End Functions.

(** ** Vocabulary of the properties *)

Section Vocabulary.

Context {num : Type} {NUM : JSNumber num}.

Local Open Scope gl_scope.
Local Open Scope string_scope.

(** The deletion calls of the graphics API. *)
Definition is_deletion (c : Call num) : bool :=
  match c with
  | deleteShader _ | deleteProgram _ | deleteBuffer _ => true
  | _ => false
  end.

(** The call that writes the store of a buffer. *)
Definition is_bufferData (c : Call num) : bool :=
  match c with
  | bufferData _ _ _ => true
  | _ => false
  end.

Definition is_drawArrays (c : Call num) : bool :=
  match c with
  | drawArrays _ _ _ => true
  | _ => false
  end.

Definition is_uniform2f (c : Call num) : bool :=
  match c with
  | uniform2f _ _ _ => true
  | _ => false
  end.

(** The calls that [drawScene] makes. *)
Definition is_render_call (c : Call num) : bool :=
  match c with
  | clearColor _ _ _ _ | clear _ | useProgram _ | bindBuffer _ _
  | vertexAttribPointer _ _ _ _ _ _ | enableVertexAttribArray _
  | uniform2f _ _ _ | drawArrays _ _ _ => true
  | _ => false
  end.

(** No deletion call among the calls of a run. *)
Definition never_releases (t : list (Call num)) : bool :=
  forallb (fun c => negb (is_deletion c)) t.

Definition is_addEventListener (c : Call num) : bool :=
  match c with
  | addEventListener _ _ => true
  | _ => false
  end.

(** The life of one instance: mount, pointer events, unmount, and the
    pointer events that the host still delivers to the element afterwards. *)
Definition mounted (canvasRef_current : option HTMLCanvasElement)
    (during : list (MouseEvent num * DOMRect num)) : M num Cleanup :=
  c <- effect canvasRef_current ;;
  dispatch_all during ;;
  ret c.

Definition lifecycle (canvasRef_current : option HTMLCanvasElement)
    (during after : list (MouseEvent num * DOMRect num)) : M num unit :=
  c <- mounted canvasRef_current during ;;
  run_cleanup c ;;
  dispatch_all after.

(** The three failures of initialization, each with the arguments of the
    [console.error] that reports it. *)
Inductive InitFailure (canvas : HTMLCanvasElement)
  : list (option string) -> Prop :=
| context_unavailable :
    canvas_getContext canvas "webgl" = None ->
    InitFailure canvas [Some "WebGL isn't available"]
| compile_failure gl type shader :
    canvas_getContext canvas "webgl" = Some gl ->
    type = VERTEX_SHADER \/ type = FRAGMENT_SHADER ->
    gl_createShader gl type = Some shader ->
    gl_getShaderParameter gl shader COMPILE_STATUS = false ->
    InitFailure canvas [Some "An error occurred compiling the shaders:";
                        gl_getShaderInfoLog gl shader]
| link_failure gl vertexShader fragmentShader shaderProgram :
    canvas_getContext canvas "webgl" = Some gl ->
    gl_createShader gl VERTEX_SHADER = Some vertexShader ->
    gl_getShaderParameter gl vertexShader COMPILE_STATUS = true ->
    gl_createShader gl FRAGMENT_SHADER = Some fragmentShader ->
    gl_getShaderParameter gl fragmentShader COMPILE_STATUS = true ->
    gl_createProgram gl = Some shaderProgram ->
    gl_getProgramParameter gl shaderProgram LINK_STATUS = false ->
    InitFailure canvas [Some "Unable to initialize the shader program:";
                        gl_getProgramInfoLog gl shaderProgram].

(** The world after an assignment to [topVertexRef.current]. *)
Definition with_topVertex (v : Vec2 num) (w : World num) : World num :=
  {| topVertexRef := v; listeners := listeners w; closures := closures w |}.

End Vocabulary.

Section Mount.

Context {num : Type} {NUM : JSNumber num}.

Local Open Scope string_scope.

(** What a driver answers on a mount that goes through. *)
Record Succeeds (gl : WebGLRenderingContext)
    (vertexShader fragmentShader : WebGLShader)
    (shaderProgram : WebGLProgram) : Prop := {
  vertex_created : gl_createShader gl VERTEX_SHADER = Some vertexShader;
  vertex_compiled :
    gl_getShaderParameter gl vertexShader COMPILE_STATUS = true;
  fragment_created : gl_createShader gl FRAGMENT_SHADER = Some fragmentShader;
  fragment_compiled :
    gl_getShaderParameter gl fragmentShader COMPILE_STATUS = true;
  program_created : gl_createProgram gl = Some shaderProgram;
  program_linked : gl_getProgramParameter gl shaderProgram LINK_STATUS = true
}.

(** The handler that such a mount builds, as the [id]-th function object. *)
Definition handler_of (canvas : HTMLCanvasElement)
    (gl : WebGLRenderingContext) (shaderProgram : WebGLProgram) (id : nat)
    : Handler :=
  {| closure := id;
     h_canvas := canvas;
     h_gl := gl;
     h_programInfo :=
       {| program := shaderProgram;
          attribLocations_vertexPosition :=
            gl_getAttribLocation gl shaderProgram "aVertexPosition";
          uniformLocations_topVertex :=
            gl_getUniformLocation gl shaderProgram "uTopVertex" |};
     h_buffers := {| position := gl_createBuffer gl |} |}.

(** The calls of such a mount up to the program's locations, and those of
    the upload. *)
Definition setup_calls (vertexShader fragmentShader : WebGLShader)
    (shaderProgram : WebGLProgram) : list (Call num) :=
  [getContext "webgl";
   createShader VERTEX_SHADER;
   shaderSource vertexShader GLSL.vsSource;
   compileShader vertexShader;
   getShaderParameter vertexShader COMPILE_STATUS;
   createShader FRAGMENT_SHADER;
   shaderSource fragmentShader GLSL.fsSource;
   compileShader fragmentShader;
   getShaderParameter fragmentShader COMPILE_STATUS;
   createProgram;
   attachShader shaderProgram vertexShader;
   attachShader shaderProgram fragmentShader;
   linkProgram shaderProgram;
   getProgramParameter shaderProgram LINK_STATUS;
   getAttribLocation shaderProgram "aVertexPosition";
   getUniformLocation shaderProgram "uTopVertex"].

Definition upload_calls (positionBuffer : option WebGLBuffer)
    : list (Call num) :=
  [createBuffer;
   bindBuffer ARRAY_BUFFER positionBuffer;
   bufferData ARRAY_BUFFER positions STATIC_DRAW].

End Mount.

Ltac unfold_effect :=
  unfold lifecycle, mounted, effect, run_cleanup, initShaderProgram,
    loadShader, initBuffers, canvas_addEventListener,
    canvas_removeEventListener, new_closure, set_listeners, bind, call, ret,
    get, value, world, trace.

(** Finds a call in an explicit list of calls. *)
Ltac find_call := cbn; repeat (first [left; reflexivity | right]).

Ltac answer :=
  match goal with
  | |- context [match gl_createShader ?g ?t with _ => _ end] =>
      destruct (gl_createShader g t) eqn:?
  | |- context [gl_getShaderParameter ?g ?s ?p] =>
      destruct (gl_getShaderParameter g s p) eqn:?
  | |- context [match gl_createProgram ?g with _ => _ end] =>
      destruct (gl_createProgram g) eqn:?
  | |- context [gl_getProgramParameter ?g ?s ?p] =>
      destruct (gl_getProgramParameter g s p) eqn:?
  | |- context [match canvas_getContext ?c ?k with _ => _ end] =>
      destruct (canvas_getContext c k) eqn:?
  end; cbn.

(** Drivers and events for the concrete runs below. *)
Module Sample.

Local Open Scope string_scope.

(** A driver on which everything succeeds. *)
Definition gl_ok : WebGLRenderingContext := {|
  gl_createShader := fun type =>
    match type with
    | VERTEX_SHADER => Some (ShaderHandle 1)
    | _ => Some (ShaderHandle 2)
    end;
  gl_getShaderParameter := fun _ _ => true;
  gl_getShaderInfoLog := fun _ => Some "";
  gl_createProgram := Some (ProgramHandle 3);
  gl_getProgramParameter := fun _ _ => true;
  gl_getProgramInfoLog := fun _ => Some "";
  gl_getAttribLocation := fun _ _ => 0%Z;
  gl_getUniformLocation := fun _ _ => Some (UniformHandle 4);
  gl_createBuffer := Some (BufferHandle 5)
|}.

(** A driver that rejects both shader sources. *)
Definition gl_rejecting : WebGLRenderingContext := {|
  gl_createShader := gl_createShader gl_ok;
  gl_getShaderParameter := fun _ _ => false;
  gl_getShaderInfoLog := fun shader =>
    match shader with
    | ShaderHandle 1 => Some "ERROR: vertex"
    | ShaderHandle _ => Some "ERROR: fragment"
    end;
  gl_createProgram := gl_createProgram gl_ok;
  gl_getProgramParameter := gl_getProgramParameter gl_ok;
  gl_getProgramInfoLog := gl_getProgramInfoLog gl_ok;
  gl_getAttribLocation := gl_getAttribLocation gl_ok;
  gl_getUniformLocation := gl_getUniformLocation gl_ok;
  gl_createBuffer := gl_createBuffer gl_ok
|}.

Definition canvas_ok : HTMLCanvasElement :=
  rendered_canvas (fun _ => Some gl_ok).

Definition canvas_rejecting : HTMLCanvasElement :=
  rendered_canvas (fun _ => Some gl_rejecting).

Definition canvas_without_webgl : HTMLCanvasElement :=
  rendered_canvas (fun _ => None).

(** A pointer event at client position [(cx, cy)] over a canvas whose
    bounding rectangle starts at [(10, 20)]. *)
Definition pointer {num : Type} {NUM : JSNumber num} (cx cy : Z)
    : MouseEvent num * DOMRect num :=
  ({| clientX := lit cx; clientY := lit cy |},
   {| left := lit 10; top := lit 20 |}).

Definition handler_ok : Handler := {|
  closure := 0;
  h_canvas := canvas_ok;
  h_gl := gl_ok;
  h_programInfo := {| program := ProgramHandle 3;
                      attribLocations_vertexPosition := 0;
                      uniformLocations_topVertex := Some (UniformHandle 4) |};
  h_buffers := {| position := Some (BufferHandle 5) |}
|}.

(** [p] holds of every integer from 0 to [n]. *)
Fixpoint upto (n : nat) (p : Z -> bool) : bool :=
  match n with
  | O => p 0%Z
  | S k => p (Z.of_nat n) && upto k p
  end.

(** Two pointer events, the first at the middle of the top edge of the
    canvas. *)
Definition moves : list (MouseEvent float * DOMRect float) :=
  [pointer 330 20; pointer 650 500].

End Sample.

(** ** Further vocabulary *)

Section Reruns.

Context {num : Type} {NUM : JSNumber num}.

Local Open Scope gl_scope.

Definition is_console_error (c : Call num) : bool :=
  match c with
  | console_error _ => true
  | _ => false
  end.

(** The effect run again on the same instance, after a mount, pointer
    events and the cleanup: the refs of the instance are kept. *)
Definition remounted (canvasRef_current : option HTMLCanvasElement)
    (during : list (MouseEvent num * DOMRect num)) : M num Cleanup :=
  c <- mounted canvasRef_current during ;;
  run_cleanup c ;;
  effect canvasRef_current.

End Reruns.

(** How the draw call reads the buffer: [vertexAttribPointer] describes two
    components per vertex, tightly packed from offset 0, and a [vec4]
    attribute fed with two components is completed with 0 and 1. *)
Module Pipeline.

Section Fetch.

Context {num : Type} {NUM : JSNumber num}.

Fixpoint fetch (data : list num) : list (GLSL.vec4 num) :=
  match data with
  | a :: b :: rest =>
      {| GLSL.x := a; GLSL.y := b; GLSL.z := lit 0; GLSL.w := lit 1 |}
      :: fetch rest
  | _ => []
  end.

(** The positions that [drawArrays(TRIANGLES, first, count)] hands on after
    the vertex stage, for the uniform [(ux, uy)]. *)
Definition clip_positions (data : list num) (first count : nat)
    (ux uy : num) : list (GLSL.vec4 num) :=
  map (fun p => GLSL.vertex_main p {| GLSL.s := ux; GLSL.t := uy |})
      (firstn count (skipn first (fetch data))).

End Fetch.

End Pipeline.

(** More drivers for concrete runs. *)
Module Faulty.

Local Open Scope string_scope.

(** Compiles both stages, then fails to link. *)
Definition gl_unlinked : WebGLRenderingContext := {|
  gl_createShader := gl_createShader Sample.gl_ok;
  gl_getShaderParameter := gl_getShaderParameter Sample.gl_ok;
  gl_getShaderInfoLog := gl_getShaderInfoLog Sample.gl_ok;
  gl_createProgram := gl_createProgram Sample.gl_ok;
  gl_getProgramParameter := fun _ _ => false;
  gl_getProgramInfoLog := fun _ => Some "ERROR: link";
  gl_getAttribLocation := gl_getAttribLocation Sample.gl_ok;
  gl_getUniformLocation := gl_getUniformLocation Sample.gl_ok;
  gl_createBuffer := gl_createBuffer Sample.gl_ok
|}.

(** Creates no shader object at all. *)
Definition gl_lost : WebGLRenderingContext := {|
  gl_createShader := fun _ => None;
  gl_getShaderParameter := gl_getShaderParameter Sample.gl_ok;
  gl_getShaderInfoLog := gl_getShaderInfoLog Sample.gl_ok;
  gl_createProgram := None;
  gl_getProgramParameter := gl_getProgramParameter Sample.gl_ok;
  gl_getProgramInfoLog := gl_getProgramInfoLog Sample.gl_ok;
  gl_getAttribLocation := gl_getAttribLocation Sample.gl_ok;
  gl_getUniformLocation := gl_getUniformLocation Sample.gl_ok;
  gl_createBuffer := None
|}.

(** Compiles and links, but gives no buffer and finds neither the attribute
    nor the uniform. *)
Definition gl_bare : WebGLRenderingContext := {|
  gl_createShader := gl_createShader Sample.gl_ok;
  gl_getShaderParameter := gl_getShaderParameter Sample.gl_ok;
  gl_getShaderInfoLog := gl_getShaderInfoLog Sample.gl_ok;
  gl_createProgram := gl_createProgram Sample.gl_ok;
  gl_getProgramParameter := gl_getProgramParameter Sample.gl_ok;
  gl_getProgramInfoLog := gl_getProgramInfoLog Sample.gl_ok;
  gl_getAttribLocation := fun _ _ => (-1)%Z;
  gl_getUniformLocation := fun _ _ => None;
  gl_createBuffer := None
|}.

End Faulty.

(** ** Vocabulary of the arithmetic on doubles

    The values of [Prim2SF], the view of a double as sign, mantissa and
    exponent that the specification of the primitive operations is stated
    on. *)

Section DoublesVocabulary.

Local Open Scope Z_scope.

(** Zero, or a finite float of magnitude at most [2 ^ k]. *)
Definition magnitude_below (k : Z) (f : spec_float) : Prop :=
  (exists s, f = S754_zero s) \/
  exists s m e, f = S754_finite s m e /\ e <= k /\ Z.pos m <= 2 ^ (k - e).

(** Zero, or a positive finite float of at most [2 ^ k]. *)
Definition positive_below (k : Z) (f : spec_float) : Prop :=
  (exists s, f = S754_zero s) \/
  exists m e, f = S754_finite false m e /\ e <= k /\ Z.pos m <= 2 ^ (k - e).

(** The doubles 1 and 2. *)
Definition sf_one : spec_float := S754_finite false 4503599627370496 (-52).
Definition sf_two : spec_float := S754_finite false 4503599627370496 (-51).

(** The two coordinates, as the handler writes them. *)
Definition to_x (p w : float) : float :=
  PrimFloat.sub (PrimFloat.mul (PrimFloat.div p w) (f64_lit 2)) (f64_lit 1).
Definition to_y (p w : float) : float :=
  PrimFloat.sub (f64_lit 1) (PrimFloat.mul (PrimFloat.div p w) (f64_lit 2)).

End DoublesVocabulary.

(** * Properties *)

(** ** The frame renderer and the pointer handler *)

Section Rendering.

Context {num : Type} {NUM : JSNumber num}.

Local Open Scope gl_scope.
Local Open Scope string_scope.

(** C8. Whatever the state, [drawScene] with top vertex [v] returns
    normally, leaves the state alone, and issues exactly eight commands in
    this order: clear colour opaque black, clear, use the program, bind the
    vertex buffer, describe the attribute as 2 [FLOAT] components, not
    normalized, stride 0, offset 0, enable the attribute, set the uniform to
    [(x v, y v)], draw [TRIANGLES] from vertex 0, 3 vertices. *)
Theorem drawScene_commands :
  forall (gl : WebGLRenderingContext) (programInfo : ProgramInfo)
         (buffers : Buffers) (v : Vec2 num) (w : World num),
    drawScene gl programInfo buffers v w =
    (tt, w,
     [clearColor (lit 0) (lit 0) (lit 0) (lit 1);
      clear COLOR_BUFFER_BIT;
      useProgram (program programInfo);
      bindBuffer ARRAY_BUFFER (position buffers);
      vertexAttribPointer (attribLocations_vertexPosition programInfo)
                          2 FLOAT false 0 0;
      enableVertexAttribArray (attribLocations_vertexPosition programInfo);
      uniform2f (uniformLocations_topVertex programInfo) (x v) (y v);
      drawArrays TRIANGLES 0 3]).
Proof. intros; reflexivity. Qed.

Lemma drawScene_world :
  forall gl programInfo buffers (v : Vec2 num) w,
    world (drawScene gl programInfo buffers v w) = w.
Proof. intros; reflexivity. Qed.

Lemma drawScene_trace_any_world :
  forall gl programInfo buffers (v : Vec2 num) w w',
    trace (drawScene gl programInfo buffers v w) =
    trace (drawScene gl programInfo buffers v w').
Proof. intros; reflexivity. Qed.

(** C1. For a pointer-move event whose offsets from the canvas corner are
    [px = clientX - rect.left] and [py = clientY - rect.top], over a canvas
    of width [W] and height [H], the handler stores
    [(px / W * 2 - 1, 1 - py / H * 2)] in the top-vertex state, changes
    nothing else of the state, and then runs the frame renderer on exactly
    that value, within the same call. *)
Theorem handleMouseMove_transform_then_redraw :
  forall (h : Handler) (event : MouseEvent num) (rect : DOMRect num)
         (w : World num),
    let px := sub (clientX event) (left rect) in
    let py := sub (clientY event) (top rect) in
    let W := lit (width (h_canvas h)) in
    let H := lit (height (h_canvas h)) in
    let v := {| x := sub (mul (div px W) (lit 2)) (lit 1);
                y := sub (lit 1) (mul (div py H) (lit 2)) |} in
    let r := handleMouseMove h event rect w in
    world r = with_topVertex v w /\
    topVertexRef (world r) = v /\
    trace r =
      getBoundingClientRect ::
      trace (drawScene (h_gl h) (h_programInfo h) (h_buffers h) v
                       (with_topVertex v w)) /\
    filter is_uniform2f (trace r) =
      [uniform2f (uniformLocations_topVertex (h_programInfo h)) (x v) (y v)] /\
    filter is_drawArrays (trace r) = [drawArrays TRIANGLES 0 3].
Proof. intros; repeat split. Qed.

End Rendering.

(** ** The shader stages *)

Section Shaders.

Context {num : Type} {NUM : JSNumber num}.

(** C7. For a vertex position [(x, y, z, w)] and a uniform [(ux, uy)], the
    vertex stage outputs [(ux, uy, 0, 1)] when [y == 1.0] holds and the
    position unchanged when it does not; the fragment stage outputs
    [(1, 0, 0, 1)], whatever the pixel. *)
Theorem shader_stages :
  forall (px py pz pw ux uy : num),
    let p := {| GLSL.x := px; GLSL.y := py; GLSL.z := pz; GLSL.w := pw |} in
    let u := {| GLSL.s := ux; GLSL.t := uy |} in
    (num_eq py (lit 1) = true ->
     GLSL.vertex_main p u =
     {| GLSL.x := ux; GLSL.y := uy; GLSL.z := lit 0; GLSL.w := lit 1 |}) /\
    (num_eq py (lit 1) = false -> GLSL.vertex_main p u = p) /\
    GLSL.fragment_main =
    {| GLSL.x := lit 1; GLSL.y := lit 0; GLSL.z := lit 0; GLSL.w := lit 1 |}.
Proof.
  intros px py pz pw ux uy p u.
  unfold GLSL.vertex_main, GLSL.vec4_of; simpl.
  repeat split; intros E; rewrite E; reflexivity.
Qed.

End Shaders.

(** On doubles, the top vertex of the uploaded triangle takes the uniform
    and the two bottom vertices pass through; an attribute read from two
    floats is completed to [(x, y, 0, 1)]. *)
Example shader_on_triangle :
  let u := {| GLSL.s := 0.25%float; GLSL.t := (-0.5)%float |} in
  let vertex (a b : float) :=
    {| GLSL.x := a; GLSL.y := b; GLSL.z := 0%float; GLSL.w := 1%float |} in
  (GLSL.vertex_main (vertex 0 1) u = vertex 0.25 (-0.5) /\
   GLSL.vertex_main (vertex (-1) (-1)) u = vertex (-1) (-1) /\
   GLSL.vertex_main (vertex 1 (-1)) u = vertex 1 (-1))%float.
Proof. vm_compute. repeat split. Qed.

Lemma shader_stages_witness :
  let u := {| GLSL.s := 0.25%float; GLSL.t := (-0.5)%float |} in
  GLSL.vertex_main
    {| GLSL.x := 0%float; GLSL.y := 1%float; GLSL.z := 0%float;
       GLSL.w := 1%float |} u =
  {| GLSL.x := 0.25%float; GLSL.y := (-0.5)%float; GLSL.z := lit 0;
     GLSL.w := lit 1 |}.
Proof.
  intro u.
  apply (proj1 (shader_stages 0%float 1%float 0%float 1%float
                              0.25%float (-0.5)%float)).
  reflexivity.
Defined.

(** ** The arithmetic of doubles

    Facts about the rounding of the primitive operations, from their
    specification in the Standard Library: rounding never passes a power of
    two, and divisions whose result is representable are exact. *)

Unset Implicit Arguments.

Section DoublesArithmetic.

Local Open Scope Z_scope.

Lemma iter_pos_nat :
  forall (A : Type) (f : A -> A) (p : positive) (a : A),
    iter_pos f p a = Nat.iter (Pos.to_nat p) f a.
Proof.
  intros A f; induction p as [p IH | p IH | ]; intro a; cbn [iter_pos].
  - rewrite !IH, Pos2Nat.inj_xI, <- Nat.iter_add, <- Nat.iter_succ_r.
    f_equal. lia.
  - rewrite !IH, Pos2Nat.inj_xO, <- Nat.iter_add. f_equal. lia.
  - reflexivity.
Qed.

Lemma shr_1_m :
  forall mrs, 0 <= shr_m mrs ->
    shr_m (shr_1 mrs) = shr_m mrs / 2 /\
    shr_r (shr_1 mrs) = Z.odd (shr_m mrs) /\
    shr_s (shr_1 mrs) = shr_r mrs || shr_s mrs.
Proof.
  intros [m r s] H; cbn in H |- *.
  destruct m as [ | [p | p | ] | p]; cbn [shr_1 shr_m shr_r shr_s Z.odd];
    try lia; repeat split.
  - change (Z.pos p~1) with (2 * Z.pos p + 1). apply Z.div_unique with 1; lia.
  - change (Z.pos p~0) with (2 * Z.pos p). apply Z.div_unique with 0; lia.
Qed.

(** [n] steps of [shr_1]: the mantissa is divided by [2 ^ n]; when nothing
    is lost, the record stays exact. *)
Lemma shr_iter :
  forall (n : nat) mrs, 0 <= shr_m mrs ->
    let r := Nat.iter n shr_1 mrs in
    0 <= shr_m r /\
    shr_m r = shr_m mrs / 2 ^ Z.of_nat n /\
    (shr_r mrs = false -> shr_s mrs = false ->
     shr_m mrs mod 2 ^ Z.of_nat n = 0 ->
     shr_r r = false /\ shr_s r = false).
Proof.
  induction n as [ | n IH]; intros mrs H r; subst r.
  - cbn. rewrite Z.div_1_r. repeat split; auto.
  - rewrite Nat.iter_succ.
    destruct (IH mrs H) as (P & Q & E).
    destruct (shr_1_m _ P) as (S1 & S2 & S3).
    rewrite Nat2Z.inj_succ, Z.pow_succ_r by lia.
    split; [rewrite S1; apply Z.div_pos; lia | split].
    + rewrite S1, Q, Z.div_div by lia. f_equal. lia.
    + intros R0 S0 M.
      assert (M' : shr_m mrs mod 2 ^ Z.of_nat n = 0).
      { apply Z.mod_divide in M; [ | lia]. apply Z.mod_divide; [lia | ].
        destruct M as [c M]. exists (c * 2). lia. }
      destruct (E R0 S0 M') as [E1 E2].
      rewrite S2, S3, E1, E2. split; [ | reflexivity].
      rewrite Q.
      apply Z.mod_divide in M; [ | lia]. destruct M as [c M].
      rewrite M.
      replace (c * (2 * 2 ^ Z.of_nat n)) with ((c * 2) * 2 ^ Z.of_nat n) by lia.
      rewrite Z.div_mul by lia.
      rewrite Z.odd_mul. cbn. apply andb_false_r.
Qed.

Lemma fexp_eq : forall e, fexp prec emax e = Z.max (e - 53) (-1074).
Proof. reflexivity. Qed.

Lemma digits2_pos_bounds :
  forall m : positive,
    2 ^ (Z.pos (digits2_pos m) - 1) <= Z.pos m < 2 ^ Z.pos (digits2_pos m).
Proof.
  induction m as [p IH | p IH | ]; cbn [digits2_pos].
  - rewrite Pos2Z.inj_succ. change (Z.pos p~1) with (2 * Z.pos p + 1).
    replace (Z.succ (Z.pos (digits2_pos p)) - 1)
      with (Z.succ (Z.pos (digits2_pos p) - 1)) by lia.
    rewrite !Z.pow_succ_r by lia. lia.
  - rewrite Pos2Z.inj_succ. change (Z.pos p~0) with (2 * Z.pos p).
    replace (Z.succ (Z.pos (digits2_pos p)) - 1)
      with (Z.succ (Z.pos (digits2_pos p) - 1)) by lia.
    rewrite !Z.pow_succ_r by lia. lia.
  - cbn. lia.
Qed.

Lemma Zdigits2_bounds :
  forall m, 0 < m -> 2 ^ (Zdigits2 m - 1) <= m < 2 ^ Zdigits2 m.
Proof.
  intros [ | p | p] H; try lia. exact (digits2_pos_bounds p).
Qed.

Lemma Zdigits2_nonneg : forall m, 0 <= Zdigits2 m.
Proof. intros [ | p | p]; cbn; lia. Qed.

(** A mantissa below [2 ^ (k - e)] has at most [k - e + 1] digits, so the
    exponent chosen for it stays below [k]. *)
Lemma fexp_below :
  forall k e m, -1074 <= k -> e <= k -> 0 <= m <= 2 ^ (k - e) ->
    fexp prec emax (Zdigits2 m + e) <= k.
Proof.
  intros k e m Hk He [H0 H1]. rewrite fexp_eq.
  apply Z.max_lub; [ | lia].
  destruct (Z.eq_dec m 0) as [-> | N]; [cbn; lia | ].
  destruct (Zdigits2_bounds m ltac:(lia)) as [D _].
  assert (P : 2 ^ (Zdigits2 m - 1) <= 2 ^ (k - e)) by lia.
  apply Z.pow_le_mono_r_iff in P; lia.
Qed.

Lemma shift_keeps_bound :
  forall k e N m, 0 <= N -> e + N <= k -> 0 <= m <= 2 ^ (k - e) ->
    0 <= m / 2 ^ N <= 2 ^ (k - (e + N)) /\
    (m / 2 ^ N = 2 ^ (k - (e + N)) -> m = 2 ^ (k - e) /\ m mod 2 ^ N = 0).
Proof.
  intros k e N m HN HE [H0 H1].
  assert (P : 2 ^ (k - e) = 2 ^ (k - (e + N)) * 2 ^ N).
  { rewrite <- Z.pow_add_r by lia. f_equal. lia. }
  assert (PN : 0 < 2 ^ N) by (apply Z.pow_pos_nonneg; lia).
  assert (U : m / 2 ^ N <= 2 ^ (k - (e + N))).
  { apply Z.div_le_upper_bound; [exact PN | ]. lia. }
  split; [split; [apply Z.div_pos; lia | exact U] | ].
  intro E.
  pose proof (Z.mul_div_le m (2 ^ N) PN) as L. rewrite E in L.
  assert (M : m = 2 ^ (k - e)) by lia.
  split; [exact M | ]. rewrite M, P. apply Z.mod_mul. lia.
Qed.

Lemma shr_record_of_loc_m :
  forall m l, shr_m (shr_record_of_loc m l) = m.
Proof. intros m [ | [ | | ] ]; reflexivity. Qed.

Lemma shr_fexp_spec :
  forall m e l, 0 <= m ->
    let N := Z.max 0 (fexp prec emax (Zdigits2 m + e) - e) in
    exists mrs,
      shr_fexp prec emax m e l = (mrs, e + N) /\
      shr_m mrs = m / 2 ^ N /\
      (l = loc_Exact -> m mod 2 ^ N = 0 -> loc_of_shr_record mrs = loc_Exact).
Proof.
  intros m e l H N. unfold shr_fexp, shr.
  destruct (fexp prec emax (Zdigits2 m + e) - e) as [ | p | p] eqn:D;
    subst N; cbn [Z.max Z.compare].
  - exists (shr_record_of_loc m l). rewrite Z.add_0_r.
    split; [reflexivity | split].
    + rewrite shr_record_of_loc_m, Z.div_1_r. reflexivity.
    + intros -> _. reflexivity.
  - rewrite iter_pos_nat.
    assert (H' : 0 <= shr_m (shr_record_of_loc m l))
      by (rewrite shr_record_of_loc_m; exact H).
    destruct (shr_iter (Pos.to_nat p) _ H') as (_ & Q & E).
    rewrite positive_nat_Z, shr_record_of_loc_m in Q, E.
    eexists. split; [reflexivity | split; [exact Q | ] ].
    intros -> M. destruct (E eq_refl eq_refl M) as [E1 E2].
    destruct (Nat.iter (Pos.to_nat p) shr_1 _) as [m' r' s'].
    cbn in E1, E2. subst r' s'. reflexivity.
  - exists (shr_record_of_loc m l). rewrite Z.add_0_r.
    split; [reflexivity | split].
    + rewrite shr_record_of_loc_m, Z.div_1_r. reflexivity.
    + intros -> _. reflexivity.
Qed.

Lemma round_nearest_even_bounds :
  forall m l, m <= round_nearest_even m l <= m + 1.
Proof.
  intros m [ | [ | | ] ]; cbn; try lia. destruct (Z.even m); lia.
Qed.

(** Rounding never passes a power of two: a value of at most [2 ^ k],
    given as [mx * 2 ^ ex] plus what [lx] stands for, rounds to zero or to a
    float of at most [2 ^ k]. *)
Lemma binary_round_aux_below :
  forall k sx mx ex lx,
    -1074 <= k <= 971 -> 0 <= mx -> ex <= k -> mx <= 2 ^ (k - ex) ->
    (mx = 2 ^ (k - ex) -> lx = loc_Exact) ->
    binary_round_aux prec emax sx mx ex lx = S754_zero sx \/
    exists m e,
      binary_round_aux prec emax sx mx ex lx = S754_finite sx m e /\
      e <= k /\ Z.pos m <= 2 ^ (k - e).
Proof.
  intros k sx mx ex lx Hk H0 He H1 Hx. unfold binary_round_aux.
  destruct (shr_fexp_spec mx ex lx H0) as (mrs1 & -> & Q1 & X1).
  set (N1 := Z.max 0 (fexp prec emax (Zdigits2 mx + ex) - ex)) in *.
  assert (E1 : ex + N1 <= k).
  { pose proof (fexp_below k ex mx ltac:(lia) He ltac:(lia)). lia. }
  destruct (shift_keeps_bound k ex N1 mx ltac:(lia) E1 ltac:(lia))
    as ([B0 B1] & BX).
  rewrite <- Q1 in B0, B1, BX.
  set (q2 := round_nearest_even (shr_m mrs1) (loc_of_shr_record mrs1)).
  assert (R : 0 <= q2 <= 2 ^ (k - (ex + N1))).
  { pose proof (round_nearest_even_bounds (shr_m mrs1)
                  (loc_of_shr_record mrs1)) as RB. fold q2 in RB.
    destruct (Z.eq_dec (shr_m mrs1) (2 ^ (k - (ex + N1)))) as [E | NE].
    - destruct (BX E) as [M1 M2].
      unfold q2. rewrite (X1 (Hx M1) M2). cbn. lia.
    - lia. }
  destruct (shr_fexp_spec q2 (ex + N1) loc_Exact ltac:(lia))
    as (mrs2 & -> & Q2 & _).
  set (N2 := Z.max 0 (fexp prec emax (Zdigits2 q2 + (ex + N1)) - (ex + N1)))
    in *.
  assert (E2 : ex + N1 + N2 <= k).
  { pose proof (fexp_below k (ex + N1) q2 ltac:(lia) E1 R). lia. }
  destruct (shift_keeps_bound k (ex + N1) N2 q2 ltac:(lia) E2 R)
    as ([C0 C1] & _).
  rewrite <- Q2 in C0, C1.
  destruct (shr_m mrs2) as [ | m | m]; [left; reflexivity | right | lia].
  exists m, (ex + N1 + N2).
  replace (ex + N1 + N2 <=? emax - prec) with true
    by (symmetry; apply Z.leb_le; unfold emax, prec; lia).
  split; [reflexivity | split; [exact E2 | exact C1] ].
Qed.

(** ** Valid floats and their order *)

Lemma valid_finite :
  forall s m e, valid_binary (S754_finite s m e) = true ->
    Z.max (Z.pos (digits2_pos m) + e - 53) (-1074) = e /\ e <= 971.
Proof.
  intros s m e V. cbn in V. unfold bounded, canonical_mantissa in V.
  apply andb_prop in V. destruct V as [V1 V2].
  apply Z.eqb_eq in V1. apply Z.leb_le in V2.
  rewrite fexp_eq in V1. unfold emax, prec in V2. split; [exact V1 | lia].
Qed.

Lemma valid_mantissa :
  forall s m e, valid_binary (S754_finite s m e) = true ->
    -1074 <= e <= 971 /\ Z.pos m < 2 ^ 53 /\
    (-1074 < e -> 2 ^ 52 <= Z.pos m).
Proof.
  intros s m e V. destruct (valid_finite s m e V) as [C B].
  pose proof (digits2_pos_bounds m) as [D1 D2].
  split; [lia | split].
  - apply Z.lt_le_trans with (1 := D2).
    apply Z.pow_le_mono_r; lia.
  - intro N. replace (Z.pos (digits2_pos m)) with 53 in D1 by lia.
    exact D1.
Qed.

Lemma compare_cont_Z :
  forall a b, Pos.compare_cont Eq a b = (Z.pos a ?= Z.pos b).
Proof. reflexivity. Qed.

Lemma SFleb_finite_value :
  forall m1 e1 m2 e2,
    valid_binary (S754_finite false m1 e1) = true ->
    valid_binary (S754_finite false m2 e2) = true ->
    SFleb (S754_finite false m1 e1) (S754_finite false m2 e2) = true ->
    e1 <= e2 /\ Z.pos m1 <= Z.pos m2 * 2 ^ (e2 - e1).
Proof.
  intros m1 e1 m2 e2 V1 V2 L.
  destruct (valid_mantissa _ _ _ V1) as (R1 & U1 & _).
  destruct (valid_mantissa _ _ _ V2) as (R2 & _ & N2).
  unfold SFleb, SFcompare in L.
  destruct (Z.compare_spec e1 e2) as [E | E | E].
  - subst e2. rewrite Z.sub_diag, Z.mul_1_r.
    rewrite compare_cont_Z in L.
    destruct (Z.compare_spec (Z.pos m1) (Z.pos m2)) as [P | P | P];
      try discriminate L; split; lia.
  - split; [lia | ].
    assert (P : 2 ^ 1 <= 2 ^ (e2 - e1)) by (apply Z.pow_le_mono_r; lia).
    specialize (N2 ltac:(lia)).
    change (2 ^ 1) with 2 in P. change (2 ^ 53) with (2 ^ 52 * 2) in U1.
    nia.
  - discriminate L.
Qed.

Lemma within_pow2 :
  forall c k s m e,
    Z.pos c = 2 ^ 52 -> -1022 <= k <= 971 ->
    valid_binary (S754_finite s m e) = true ->
    e <= k -> Z.pos m <= 2 ^ (k - e) ->
    SFleb (S754_finite true c (k - 52)) (S754_finite s m e) = true /\
    SFleb (S754_finite s m e) (S754_finite false c (k - 52)) = true.
Proof.
  intros c k s m e Hc Hk V E M.
  destruct (valid_mantissa _ _ _ V) as (R & U & N).
  assert (C : e < k - 52 \/ e = k - 52 /\ Z.pos m <= Z.pos c).
  { destruct (Z_lt_le_dec e (k - 52)) as [L | G]; [left; exact L | right].
    destruct (Z.eq_dec e (k - 52)) as [-> | NE].
    - split; [reflexivity | ].
      replace (k - (k - 52)) with 52 in M by lia. rewrite Hc. exact M.
    - exfalso. specialize (N ltac:(lia)).
      assert (P : 2 ^ (k - e) <= 2 ^ 51) by (apply Z.pow_le_mono_r; lia).
      replace (2 ^ 52) with (2 ^ 51 * 2) in N by reflexivity.
      assert (0 < 2 ^ 51) by reflexivity. lia. }
  unfold SFleb, SFcompare. rewrite !compare_cont_Z.
  destruct s; split; try reflexivity.
  - destruct C as [L | [-> P] ].
    + rewrite (proj2 (Z.compare_gt_iff (k - 52) e)) by lia. reflexivity.
    + rewrite Z.compare_refl.
      destruct (Z.compare_spec (Z.pos c) (Z.pos m)); cbn; try reflexivity.
      lia.
  - destruct C as [L | [-> P] ].
    + rewrite (proj2 (Z.compare_lt_iff e (k - 52))) by lia. reflexivity.
    + rewrite Z.compare_refl.
      destruct (Z.compare_spec (Z.pos m) (Z.pos c)); cbn; try reflexivity.
      lia.
Qed.

Lemma within_unit :
  forall f, valid_binary f = true -> magnitude_below 0 f ->
    SFleb (SFopp sf_one) f = true /\ SFleb f sf_one = true.
Proof.
  intros f V [ [s ->] | (s & m & e & -> & E & M) ]; [split; reflexivity | ].
  exact (within_pow2 4503599627370496 0 s m e eq_refl ltac:(lia) V E M).
Qed.

(** ** Division *)

Lemma new_location_exact : forall m, new_location m 0 = loc_Exact.
Proof.
  intro m. unfold new_location, new_location_even, new_location_odd.
  destruct (Z.even m); reflexivity.
Qed.

Lemma SFdiv_core_below_one :
  forall m1 e1 m2 e2,
    e1 <= e2 -> Z.pos m1 <= Z.pos m2 * 2 ^ (e2 - e1) ->
    let '(q, e', l) := SFdiv_core_binary prec emax (Z.pos m1) e1
                                         (Z.pos m2) e2 in
    0 <= q /\ e' <= 0 /\ q <= 2 ^ (0 - e') /\
    (q = 2 ^ (0 - e') -> l = loc_Exact).
Proof.
  intros m1 e1 m2 e2 E M. unfold SFdiv_core_binary.
  set (e' := Z.min _ (e1 - e2)).
  assert (E' : e' <= e1 - e2) by apply Z.le_min_r.
  set (s := e1 - e2 - e').
  set (m' := match s with Z.pos _ => Z.shiftl (Z.pos m1) s
                     | 0 => Z.pos m1 | Z.neg _ => 0 end).
  assert (S0 : 0 <= s) by (unfold s; lia).
  assert (M' : m' = Z.pos m1 * 2 ^ s).
  { unfold m'. destruct s as [ | p | p] eqn:Es.
    - cbn. lia.
    - apply Z.shiftl_mul_pow2. lia.
    - lia. }
  assert (B : m' <= Z.pos m2 * 2 ^ (0 - e')).
  { rewrite M'.
    replace (0 - e') with ((e2 - e1) + s) by (unfold s; lia).
    rewrite Z.pow_add_r by lia.
    assert (0 < 2 ^ s) by (apply Z.pow_pos_nonneg; lia). nia. }
  assert (P0 : 0 <= m').
  { rewrite M'. assert (0 < 2 ^ s) by (apply Z.pow_pos_nonneg; lia). nia. }
  pose proof (Z_div_mod m' (Z.pos m2) ltac:(lia)) as DM.
  destruct (Z.div_eucl m' (Z.pos m2)) as [q r].
  destruct DM as [DM1 DM2].
  assert (PB : 0 < 2 ^ (0 - e')) by (apply Z.pow_pos_nonneg; lia).
  split; [nia | split; [lia | split; [nia | ] ] ].
  intro Q. assert (r = 0) by nia. subst r. apply new_location_exact.
Qed.

Lemma SFdiv_below_one :
  forall x m2 e2,
    valid_binary x = true ->
    valid_binary (S754_finite false m2 e2) = true ->
    SFleb (S754_zero false) x = true ->
    SFleb x (S754_finite false m2 e2) = true ->
    positive_below 0 (SFdiv prec emax x (S754_finite false m2 e2)).
Proof.
  intros [s | s | | s m1 e1] m2 e2 V1 V2 L0 L1; try discriminate L1.
  - left. eexists. reflexivity.
  - destruct s; discriminate.
  - destruct s; [discriminate L0 | ].
    destruct (SFleb_finite_value _ _ _ _ V1 V2 L1) as [E M].
    pose proof (SFdiv_core_below_one m1 e1 m2 e2 E M) as C.
    unfold SFdiv.
    destruct (SFdiv_core_binary prec emax (Z.pos m1) e1 (Z.pos m2) e2)
      as [ [q e'] l].
    destruct C as (C0 & C1 & C2 & C3).
    destruct (binary_round_aux_below 0 (xorb false false) q e' l
                ltac:(lia) C0 C1 C2 C3) as [Z | (m & e & -> & B1 & B2) ].
    + left. eexists. exact Z.
    + right. exists m, e. repeat split; assumption.
Qed.

(** ** Doubling, and the distance to one *)

Lemma SFmul_two_below :
  forall q, positive_below 0 q -> positive_below 1 (SFmul prec emax q sf_two).
Proof.
  intros q [ [s ->] | (m & e & -> & E & M) ].
  - left. eexists. reflexivity.
  - unfold SFmul, sf_two.
    destruct (binary_round_aux_below 1 (xorb false false)
                (Z.pos (m * 4503599627370496)) (e + -51) loc_Exact)
      as [Z | (m' & e' & -> & B1 & B2) ]; try lia.
    + rewrite Pos2Z.inj_mul.
      replace (1 - (e + -51)) with ((0 - e) + 52) by lia.
      rewrite Z.pow_add_r by lia.
      change (2 ^ 52) with (Z.pos 4503599627370496). nia.
    + reflexivity.
    + left. eexists. exact Z.
    + right. exists m', e'. repeat split; assumption.
Qed.

Lemma iter_xO_value :
  forall m d, Z.pos (Pos.iter xO m d) = Z.pos m * 2 ^ Z.pos d.
Proof.
  intros m d.
  apply (@Pos.iter_ind positive xO m (fun p a => Z.pos a = Z.pos m * 2 ^ Z.pos p)).
  - change (Z.pos m~0) with (2 * Z.pos m). change (2 ^ 1) with 2. lia.
  - intros p a IH. change (Z.pos a~0) with (2 * Z.pos a).
    rewrite Pos2Z.inj_succ, Z.pow_succ_r, IH by lia. lia.
Qed.

Lemma shl_align_spec :
  forall m e e',
    let r := shl_align m e e' in
    snd r = Z.min e e' /\ Z.pos (fst r) = Z.pos m * 2 ^ (e - snd r).
Proof.
  intros m e e' r; subst r. unfold shl_align.
  destruct (e' - e) as [ | d | d] eqn:D; cbn [fst snd].
  - split; [lia | ]. rewrite Z.sub_diag. lia.
  - split; [lia | ]. rewrite Z.sub_diag. lia.
  - split; [lia | ]. rewrite iter_xO_value. f_equal. f_equal. lia.
Qed.

Lemma binary_round_below :
  forall k s m e,
    -1074 <= k <= 971 -> e <= k -> Z.pos m <= 2 ^ (k - e) ->
    magnitude_below k (binary_round prec emax s m e).
Proof.
  intros k s m e Hk He Hm. unfold binary_round.
  pose proof (shl_align_spec m e (fexp prec emax (Z.pos (digits2_pos m) + e)))
    as [A1 A2].
  destruct (shl_align m e _) as [mz ez]. cbn [fst snd] in A1, A2.
  assert (Ez : ez <= e) by lia.
  destruct (binary_round_aux_below k s (Z.pos mz) ez loc_Exact)
    as [Z | (m' & e' & -> & B1 & B2) ]; try lia.
  - rewrite A2. replace (k - ez) with ((k - e) + (e - ez)) by lia.
    rewrite Z.pow_add_r by lia.
    assert (0 < 2 ^ (e - ez)) by (apply Z.pow_pos_nonneg; lia). nia.
  - reflexivity.
  - left. eexists. exact Z.
  - right. exists s, m', e'. repeat split; assumption.
Qed.

Lemma binary_normalize_below :
  forall k d e,
    -1074 <= k <= 971 -> e <= k -> Z.abs d <= 2 ^ (k - e) ->
    magnitude_below k (binary_normalize prec emax d e false).
Proof.
  intros k [ | p | p] e Hk He Hd; cbn [binary_normalize].
  - left. eexists. reflexivity.
  - apply binary_round_below; assumption.
  - apply binary_round_below; assumption.
Qed.

(** The mantissas of [t <= 2] and of one, aligned. *)
Lemma aligned_with_one :
  forall m e, e <= 1 -> Z.pos m <= 2 ^ (1 - e) ->
    let ez := Z.min e (-52) in
    let a := Z.pos (fst (shl_align m e ez)) in
    let b := Z.pos (fst (shl_align 4503599627370496 (-52) ez)) in
    ez <= 0 /\ Z.abs (a - b) <= 2 ^ (0 - ez) /\ Z.abs (b - a) <= 2 ^ (0 - ez).
Proof.
  intros m e E M ez a b.
  pose proof (shl_align_spec m e ez) as [A1 A2].
  pose proof (shl_align_spec 4503599627370496 (-52) ez) as [B1 B2].
  fold a in A2. fold b in B2. rewrite A1 in A2. rewrite B1 in B2.
  replace (Z.min e ez) with ez in A2 by (unfold ez; lia).
  replace (Z.min (-52) ez) with ez in B2 by (unfold ez; lia).
  assert (Ez : ez <= -52) by (unfold ez; lia).
  assert (Hb : b = 2 ^ (0 - ez)).
  { rewrite B2. change (Z.pos 4503599627370496) with (2 ^ 52).
    rewrite <- Z.pow_add_r by lia. f_equal. lia. }
  assert (Ha : a <= 2 * 2 ^ (0 - ez)).
  { rewrite A2. replace (2 * 2 ^ (0 - ez)) with (2 ^ (1 - e) * 2 ^ (e - ez)).
    - assert (0 < 2 ^ (e - ez)) by (apply Z.pow_pos_nonneg; unfold ez; lia).
      nia.
    - rewrite <- Z.pow_add_r by (unfold ez; lia).
      replace (1 - e + (e - ez)) with (Z.succ (0 - ez)) by lia.
      rewrite Z.pow_succ_r by lia. reflexivity. }
  assert (0 < a) by (unfold a; lia).
  split; [lia | split; lia].
Qed.

Lemma SFsub_one_below :
  forall t, positive_below 1 t ->
    magnitude_below 0 (SFsub prec emax t sf_one) /\
    magnitude_below 0 (SFsub prec emax sf_one t).
Proof.
  intros t [ [s ->] | (m & e & -> & E & M) ].
  - split; right.
    + exists true, 4503599627370496%positive, (-52). cbn. repeat split; lia.
    + exists false, 4503599627370496%positive, (-52). cbn. repeat split; lia.
  - destruct (aligned_with_one m e E M) as (Z0 & D1 & D2).
    unfold SFsub, sf_one. cbn [cond_Zopp].
    rewrite (Z.min_comm (-52) e).
    split; apply binary_normalize_below; try lia; assumption.
Qed.

(** ** Exact results *)

Lemma Zdigits2_unique :
  forall m d, 0 < m -> 2 ^ (d - 1) <= m < 2 ^ d -> Zdigits2 m = d.
Proof.
  intros m d H [L U].
  destruct (Zdigits2_bounds m H) as [L' U'].
  pose proof (Zdigits2_nonneg m) as P.
  assert (D0 : 0 < d).
  { destruct (Z_lt_le_dec 0 d) as [ | N]; [assumption | exfalso].
    rewrite (Z.pow_neg_r 2 (d - 1)) in L by lia.
    destruct (Z.eq_dec d 0) as [-> | ]; [cbn in U; lia | ].
    rewrite (Z.pow_neg_r 2 d) in U by lia. lia. }
  assert (A : 2 ^ (Zdigits2 m - 1) < 2 ^ d) by lia.
  assert (B : 2 ^ (d - 1) < 2 ^ Zdigits2 m) by lia.
  apply Z.pow_lt_mono_r_iff in A; [ | lia | lia].
  apply Z.pow_lt_mono_r_iff in B; [ | lia | lia].
  lia.
Qed.

Lemma Zdigits2_shift :
  forall q N, 0 <= N ->
    Zdigits2 (Z.pos q * 2 ^ N) = Z.pos (digits2_pos q) + N.
Proof.
  intros q N HN.
  pose proof (digits2_pos_bounds q) as [L U].
  assert (P : 0 < 2 ^ N) by (apply Z.pow_pos_nonneg; lia).
  apply Zdigits2_unique; [nia | ].
  replace (Z.pos (digits2_pos q) + N - 1)
    with ((Z.pos (digits2_pos q) - 1) + N) by lia.
  rewrite !Z.pow_add_r by lia. nia.
Qed.

(** Rounding a value that fits: [q * 2 ^ N] at exponent [ex], where [q] is
    canonical at [ex + N], gives [q] at [ex + N]. *)
Lemma binary_round_aux_exact :
  forall s q N ex,
    0 <= N ->
    fexp prec emax (Z.pos (digits2_pos q) + (ex + N)) = ex + N ->
    ex + N <= 971 ->
    binary_round_aux prec emax s (Z.pos q * 2 ^ N) ex loc_Exact =
    S754_finite s q (ex + N).
Proof.
  intros s q N ex HN C B. unfold binary_round_aux.
  assert (P : 0 < 2 ^ N) by (apply Z.pow_pos_nonneg; lia).
  destruct (shr_fexp_spec (Z.pos q * 2 ^ N) ex loc_Exact ltac:(nia))
    as (mrs1 & -> & Q1 & X1).
  rewrite Zdigits2_shift in Q1, X1 |- * by exact HN.
  replace (Z.pos (digits2_pos q) + N + ex)
    with (Z.pos (digits2_pos q) + (ex + N)) in Q1, X1 |- * by lia.
  rewrite C in Q1, X1 |- *.
  assert (EN : Z.max 0 (ex + N - ex) = N) by lia.
  rewrite EN in Q1, X1 |- *.
  rewrite Z.div_mul in Q1 by lia.
  assert (NZ : 2 ^ N <> 0) by lia.
  rewrite (X1 eq_refl (Z.mod_mul (Z.pos q) (2 ^ N) NZ)), Q1.
  cbn [round_nearest_even].
  destruct (shr_fexp_spec (Z.pos q) (ex + N) loc_Exact ltac:(lia))
    as (mrs2 & -> & Q2 & _).
  cbn [Zdigits2] in Q2 |- *. rewrite C in Q2 |- *.
  rewrite Z.sub_diag in Q2 |- *. cbn [Z.max Z.compare] in Q2 |- *.
  rewrite Z.div_1_r in Q2. rewrite Q2, Z.add_0_r.
  replace (ex + N <=? emax - prec) with true
    by (symmetry; apply Z.leb_le; unfold emax, prec; lia).
  reflexivity.
Qed.

Lemma div_eucl_eq :
  forall a b, Z.div_eucl a b = (a / b, a mod b).
Proof.
  intros a b. unfold Z.div, Z.modulo. destruct (Z.div_eucl a b); reflexivity.
Qed.

Lemma SFdiv_core_eq :
  forall m1 e1 m2 e2 e',
    e' = Z.min (fexp prec emax (Z.pos (digits2_pos m1) + e1
                                - (Z.pos (digits2_pos m2) + e2))) (e1 - e2) ->
    let s := e1 - e2 - e' in
    SFdiv_core_binary prec emax (Z.pos m1) e1 (Z.pos m2) e2 =
    (Z.pos m1 * 2 ^ s / Z.pos m2, e',
     new_location (Z.pos m2) ((Z.pos m1 * 2 ^ s) mod Z.pos m2)).
Proof.
  intros m1 e1 m2 e2 e' E s. unfold SFdiv_core_binary. cbn [Zdigits2].
  rewrite <- E. fold s.
  assert (S0 : 0 <= s) by (unfold s; lia).
  replace (match s with Z.pos _ => Z.shiftl (Z.pos m1) s
                   | 0 => Z.pos m1 | Z.neg _ => 0 end)
    with (Z.pos m1 * 2 ^ s).
  - rewrite div_eucl_eq. reflexivity.
  - destruct s as [ | p | p] eqn:Es.
    + cbn. lia.
    + symmetry. apply Z.shiftl_mul_pow2. lia.
    + lia.
Qed.

(** Two normal doubles with the same mantissa: the quotient is the power of
    two of the difference of the exponents. *)
Lemma SFdiv_same_mantissa :
  forall c m e1 e2,
    Z.pos c = 2 ^ 52 ->
    Z.pos (digits2_pos m) = 53 -> -1000 <= e1 - e2 <= 1000 ->
    SFdiv prec emax (S754_finite false m e1) (S754_finite false m e2) =
    S754_finite false c (e1 - e2 - 52).
Proof.
  intros c m e1 e2 Hc D R. unfold SFdiv.
  rewrite (SFdiv_core_eq m e1 m e2 (e1 - e2 - 53)).
  2:{ rewrite D, fexp_eq. lia. }
  replace (e1 - e2 - (e1 - e2 - 53)) with 53 by lia.
  rewrite Z.mul_comm, Z.div_mul, Z.mod_mul by lia.
  rewrite new_location_exact.
  replace (2 ^ 53) with (Z.pos c * 2 ^ 1) by (rewrite Hc; reflexivity).
  rewrite binary_round_aux_exact.
  - f_equal. lia.
  - lia.
  - assert (Dc : Z.pos (digits2_pos c) = 53).
    { change (Z.pos (digits2_pos c)) with (Zdigits2 (Z.pos c)).
      apply Zdigits2_unique; [lia | ]. rewrite Hc.
      split; [apply Z.le_refl | reflexivity]. }
    rewrite Dc, fexp_eq. lia.
  - lia.
Qed.

(** Half of a normal double. *)
Lemma SFdiv_by_two :
  forall m e,
    Z.pos (digits2_pos m) = 53 -> -1000 <= e <= 900 ->
    SFdiv prec emax (S754_finite false m e) sf_two =
    S754_finite false m (e - 1).
Proof.
  intros m e D R. unfold SFdiv, sf_two.
  rewrite (SFdiv_core_eq m e 4503599627370496 (-51) (e - 2)).
  2:{ rewrite D.
      replace (Z.pos (digits2_pos 4503599627370496)) with 53 by reflexivity.
      rewrite fexp_eq. lia. }
  replace (e - -51 - (e - 2)) with 53 by lia.
  replace (2 ^ 53) with (2 * Z.pos 4503599627370496) by reflexivity.
  replace (Z.pos m * (2 * Z.pos 4503599627370496))
    with ((Z.pos m * 2 ^ 1) * Z.pos 4503599627370496)
    by (change (2 ^ 1) with 2; lia).
  rewrite Z.div_mul, Z.mod_mul by lia.
  rewrite new_location_exact.
  rewrite binary_round_aux_exact.
  - f_equal. lia.
  - lia.
  - rewrite D, fexp_eq. lia.
  - lia.
Qed.

(** ** Integer literals *)

Lemma f64_of_positive :
  forall p, Z.pos p < 2 ^ 53 ->
    exists m e,
      Prim2SF (of_uint63 (Uint63.of_Z (Z.pos p))) = S754_finite false m e /\
      Z.pos (digits2_pos m) = 53 /\ -52 <= e <= 0.
Proof.
  intros p H.
  rewrite of_uint63_spec, Uint63.of_Z_spec.
  rewrite Z.mod_small
    by (split; [lia | apply Z.lt_trans with (1 := H); reflexivity]).
  cbn [binary_normalize]. unfold binary_round.
  pose proof (digits2_pos_bounds p) as [L U].
  assert (D : Z.pos (digits2_pos p) <= 53).
  { assert (A : 2 ^ (Z.pos (digits2_pos p) - 1) < 2 ^ 53) by lia.
    apply Z.pow_lt_mono_r_iff in A; lia. }
  pose proof (shl_align_spec p 0
                (fexp prec emax (Z.pos (digits2_pos p) + 0))) as [A1 A2].
  destruct (shl_align p 0 _) as [mz ez]. cbn [fst snd] in A1, A2.
  rewrite fexp_eq in A1.
  assert (Ez : ez = Z.pos (digits2_pos p) - 53) by lia.
  assert (Dz : Z.pos (digits2_pos mz) = 53).
  { change (Z.pos (digits2_pos mz)) with (Zdigits2 (Z.pos mz)).
    rewrite A2, Zdigits2_shift by lia. lia. }
  exists mz, ez. split; [ | split; [exact Dz | lia] ].
  replace (Z.pos mz) with (Z.pos mz * 2 ^ 0) by (cbn; lia).
  rewrite binary_round_aux_exact.
  - f_equal. lia.
  - lia.
  - rewrite Dz, fexp_eq. lia.
  - lia.
Qed.

Lemma SFeqb_zero :
  forall x, SFeqb x (S754_zero false) = true -> exists s, x = S754_zero s.
Proof.
  intros [s | s | | s m e] E; try discriminate E.
  - exists s; reflexivity.
  - destruct s; discriminate E.
  - destruct s; discriminate E.
Qed.

Lemma SFeqb_finite :
  forall x m e,
    SFeqb x (S754_finite false m e) = true -> x = S754_finite false m e.
Proof.
  intros [s | s | | s m1 e1] m e E; try discriminate E;
    try (destruct s; discriminate E).
  unfold SFeqb, SFcompare in E. destruct s; [discriminate E | ].
  destruct (Z.compare_spec e1 e) as [-> | | ]; try discriminate E.
  destruct (Pos.compare_cont Eq m1 m) eqn:C; try discriminate E.
  apply Pos.compare_eq in C. subst m1. reflexivity.
Qed.

Lemma lit_two : Prim2SF (f64_lit 2) = sf_two.
Proof. reflexivity. Qed.

Lemma lit_one : Prim2SF (f64_lit 1) = sf_one.
Proof. reflexivity. Qed.

Lemma lit_minus_one : Prim2SF (f64_lit (-1)) = SFopp sf_one.
Proof. reflexivity. Qed.

Lemma to_x_spec :
  forall p w,
    Prim2SF (to_x p w) =
    SFsub prec emax
      (SFmul prec emax (SFdiv prec emax (Prim2SF p) (Prim2SF w)) sf_two) sf_one.
Proof.
  intros p w. unfold to_x.
  rewrite sub_spec, mul_spec, div_spec, lit_two, lit_one. reflexivity.
Qed.

Lemma to_y_spec :
  forall p w,
    Prim2SF (to_y p w) =
    SFsub prec emax sf_one
      (SFmul prec emax (SFdiv prec emax (Prim2SF p) (Prim2SF w)) sf_two).
Proof.
  intros p w. unfold to_y.
  rewrite sub_spec, mul_spec, div_spec, lit_two, lit_one. reflexivity.
Qed.

Lemma unit_range :
  forall p w m e,
    Prim2SF w = S754_finite false m e ->
    PrimFloat.leb 0 p = true -> PrimFloat.leb p w = true ->
    (PrimFloat.leb (f64_lit (-1)) (to_x p w) = true /\
     PrimFloat.leb (to_x p w) (f64_lit 1) = true) /\
    (PrimFloat.leb (f64_lit (-1)) (to_y p w) = true /\
     PrimFloat.leb (to_y p w) (f64_lit 1) = true).
Proof.
  intros p w m e W L0 L1.
  rewrite leb_spec in L0, L1. rewrite W in L1.
  change (Prim2SF 0) with (S754_zero false) in L0.
  pose proof (Prim2SF_valid w) as Vw. rewrite W in Vw.
  pose proof (SFdiv_below_one _ m e (Prim2SF_valid p) Vw L0 L1) as D.
  apply SFmul_two_below in D. apply SFsub_one_below in D.
  destruct D as [Dx Dy].
  rewrite <- W in Dx, Dy. rewrite <- to_x_spec in Dx. rewrite <- to_y_spec in Dy.
  rewrite !leb_spec, lit_one, lit_minus_one.
  split; apply within_unit; try assumption; apply Prim2SF_valid.
Qed.

Lemma at_zero :
  forall p w m e,
    Prim2SF w = S754_finite false m e ->
    PrimFloat.eqb p 0 = true ->
    to_x p w = f64_lit (-1) /\ to_y p w = f64_lit 1.
Proof.
  intros p w m e W E. rewrite eqb_spec in E.
  change (Prim2SF 0) with (S754_zero false) in E.
  destruct (SFeqb_zero _ E) as [s P].
  split; apply Prim2SF_inj.
  - rewrite to_x_spec, P, W. reflexivity.
  - rewrite to_y_spec, P, W. reflexivity.
Qed.

Lemma at_extent :
  forall p w m e,
    Prim2SF w = S754_finite false m e ->
    Z.pos (digits2_pos m) = 53 ->
    PrimFloat.eqb p w = true ->
    to_x p w = f64_lit 1 /\ to_y p w = f64_lit (-1).
Proof.
  intros p w m e W D E. rewrite eqb_spec, W in E.
  apply SFeqb_finite in E.
  assert (Q : SFdiv prec emax (Prim2SF p) (Prim2SF w) = sf_one).
  { rewrite E, W.
    rewrite (SFdiv_same_mantissa 4503599627370496 m e e eq_refl D)
      by lia.
    unfold sf_one. f_equal. lia. }
  split; apply Prim2SF_inj.
  - rewrite to_x_spec, Q. vm_compute. reflexivity.
  - rewrite to_y_spec, Q. vm_compute. reflexivity.
Qed.

Lemma at_half :
  forall p w m e,
    Prim2SF w = S754_finite false m e ->
    Z.pos (digits2_pos m) = 53 -> -52 <= e <= 0 ->
    PrimFloat.eqb p (PrimFloat.div w (f64_lit 2)) = true ->
    to_x p w = f64_lit 0 /\ to_y p w = f64_lit 0.
Proof.
  intros p w m e W D R E.
  rewrite eqb_spec, div_spec, W, lit_two in E.
  change (SF64div ?a ?b) with (SFdiv prec emax a b) in E.
  rewrite (SFdiv_by_two m e D) in E by lia.
  apply SFeqb_finite in E.
  assert (Q : SFdiv prec emax (Prim2SF p) (Prim2SF w) =
              S754_finite false 4503599627370496 (-53)).
  { rewrite E, W.
    rewrite (SFdiv_same_mantissa 4503599627370496 m (e - 1) e eq_refl D)
      by lia.
    f_equal. lia. }
  split; apply Prim2SF_inj.
  - rewrite to_x_spec, Q. vm_compute. reflexivity.
  - rewrite to_y_spec, Q. vm_compute. reflexivity.
Qed.

Lemma f64_lit_positive :
  forall z, 0 < z < 2 ^ 53 ->
    exists m e,
      Prim2SF (f64_lit z) = S754_finite false m e /\
      Z.pos (digits2_pos m) = 53 /\ -52 <= e <= 0.
Proof.
  intros [ | p | p] [H0 H1]; try lia.
  exact (f64_of_positive p H1).
Qed.

End DoublesArithmetic.

Set Implicit Arguments.

(** ** The coordinate transform *)

Section CoordinateTransform.

(** C2. On doubles, as the handler computes.  Over a canvas of width [W]
    and height [H], both positive (and below [2 ^ 53]; canvas sizes are
    32-bit unsigned attributes), a pointer event whose offsets
    [px = clientX - rect.left] and [py = clientY - rect.top] satisfy
    [0 <= px <= W] and [0 <= py <= H] leaves a top vertex [(x, y)] with
    [-1 <= x <= 1] and [-1 <= y <= 1]; offsets [(0, 0)] give exactly
    [(-1, 1)], [(W, H)] give [(1, -1)], [(W/2, H/2)] give [(0, 0)] and
    [(W/2, 0)] give [(0, 1)]. *)
Theorem pointer_transform_range :
  forall (h : Handler) (event : MouseEvent float) (rect : DOMRect float)
         (w : World float),
    let W := f64_lit (width (h_canvas h)) in
    let H := f64_lit (height (h_canvas h)) in
    let px := PrimFloat.sub (clientX event) (left rect) in
    let py := PrimFloat.sub (clientY event) (top rect) in
    let v := topVertexRef (world (handleMouseMove h event rect w)) in
    (0 < width (h_canvas h) < 2 ^ 53)%Z ->
    (0 < height (h_canvas h) < 2 ^ 53)%Z ->
    PrimFloat.leb 0 px = true -> PrimFloat.leb px W = true ->
    PrimFloat.leb 0 py = true -> PrimFloat.leb py H = true ->
    (PrimFloat.leb (-1) (x v) = true /\ PrimFloat.leb (x v) 1 = true /\
     PrimFloat.leb (-1) (y v) = true /\ PrimFloat.leb (y v) 1 = true) /\
    (PrimFloat.eqb px 0 = true -> PrimFloat.eqb py 0 = true ->
     x v = (-1)%float /\ y v = 1%float) /\
    (PrimFloat.eqb px W = true -> PrimFloat.eqb py H = true ->
     x v = 1%float /\ y v = (-1)%float) /\
    (PrimFloat.eqb px (PrimFloat.div W 2) = true ->
     PrimFloat.eqb py (PrimFloat.div H 2) = true ->
     x v = 0%float /\ y v = 0%float) /\
    (PrimFloat.eqb px (PrimFloat.div W 2) = true ->
     PrimFloat.eqb py 0 = true ->
     x v = 0%float /\ y v = 1%float).
Proof.
  intros h event rect w W H px py v HW HH X0 X1 Y0 Y1.
  change (x v) with (to_x px W). change (y v) with (to_y py H).
  destruct (f64_lit_positive _ HW) as (mw & ew & SW & DW & RW).
  destruct (f64_lit_positive _ HH) as (mh & eh & SH & DH & RH).
  fold W in SW. fold H in SH.
  destruct (unit_range px W mw ew SW X0 X1) as [ [A1 A2] _].
  destruct (unit_range py H mh eh SH Y0 Y1) as [_ [B1 B2] ].
  split; [repeat split; assumption | ].
  split; [ | split; [ | split] ]; intros Ex Ey.
  - split.
    + exact (proj1 (at_zero px W mw ew SW Ex)).
    + exact (proj2 (at_zero py H mh eh SH Ey)).
  - split.
    + exact (proj1 (at_extent px W mw ew SW DW Ex)).
    + exact (proj2 (at_extent py H mh eh SH DH Ey)).
  - split.
    + exact (proj1 (at_half px W mw ew SW DW RW Ex)).
    + exact (proj2 (at_half py H mh eh SH DH RH Ey)).
  - split.
    + exact (proj1 (at_half px W mw ew SW DW RW Ex)).
    + exact (proj2 (at_zero py H mh eh SH Ey)).
Qed.

Lemma pointer_transform_range_witness :
  let v := topVertexRef (world (handleMouseMove Sample.handler_ok
             (fst (Sample.pointer 650 500)) (snd (Sample.pointer 650 500))
             (initial_world (num := float)))) in
  x v = 1%float /\ y v = (-1)%float.
Proof.
  intro v.
  refine (proj1 (proj2 (proj2
    (pointer_transform_range Sample.handler_ok
       (fst (Sample.pointer 650 500)) (snd (Sample.pointer 650 500))
       initial_world _ _ _ _ _ _))) _ _);
    try reflexivity; split; reflexivity.
Defined.

End CoordinateTransform.

(** ** The monad and the delivery of events *)

Section Runs.

Context {num : Type} {NUM : JSNumber num}.

Local Open Scope gl_scope.
Local Open Scope string_scope.

Lemma bind_value :
  forall A B (m : M num A) (k : A -> M num B) w,
    value (bind m k w) = value (k (value (m w)) (world (m w))).
Proof.
  intros A B m k w; unfold bind, value, world.
  destruct (m w) as [[a w1] t1]; cbn.
  destruct (k a w1) as [[b w2] t2]; reflexivity.
Qed.

Lemma bind_world :
  forall A B (m : M num A) (k : A -> M num B) w,
    world (bind m k w) = world (k (value (m w)) (world (m w))).
Proof.
  intros A B m k w; unfold bind, value, world.
  destruct (m w) as [[a w1] t1]; cbn.
  destruct (k a w1) as [[b w2] t2]; reflexivity.
Qed.

Lemma bind_trace :
  forall A B (m : M num A) (k : A -> M num B) w,
    trace (bind m k w) =
    (trace (m w) ++ trace (k (value (m w)) (world (m w))))%list.
Proof.
  intros A B m k w; unfold bind, value, world, trace.
  destruct (m w) as [[a w1] t1]; cbn.
  destruct (k a w1) as [[b w2] t2]; reflexivity.
Qed.

Lemma handleMouseMove_world :
  forall h event rect (w : World num),
    listeners (world (handleMouseMove h event rect w)) = listeners w /\
    closures (world (handleMouseMove h event rect w)) = closures w.
Proof. intros; split; reflexivity. Qed.

Lemma handleMouseMove_calls :
  forall h event rect (w : World num) c,
    In c (trace (handleMouseMove h event rect w)) ->
    c = getBoundingClientRect \/ is_render_call c = true.
Proof.
  intros h event rect w c H; cbn in H.
  destruct H as [H | H]; [left; symmetry; exact H | right].
  repeat (destruct H as [H | H]; [subst c; reflexivity | ]).
  destruct H.
Qed.

Lemma run_listeners_world :
  forall ls event rect (w : World num),
    listeners (world (run_listeners ls event rect w)) = listeners w /\
    closures (world (run_listeners ls event rect w)) = closures w.
Proof.
  induction ls as [ | l rest IH]; intros event rect w; [split; reflexivity | ].
  cbn [run_listeners]. rewrite bind_world.
  destruct (IH event rect
              (world ((if (fst l =? "mousemove")%string
                       then handleMouseMove (snd l) event rect
                       else ret tt) w))) as [E1 E2].
  rewrite E1, E2.
  destruct (fst l =? "mousemove")%string; split; reflexivity.
Qed.

Lemma run_listeners_calls :
  forall ls event rect (w : World num) c,
    In c (trace (run_listeners ls event rect w)) ->
    c = getBoundingClientRect \/ is_render_call c = true.
Proof.
  induction ls as [ | l rest IH]; intros event rect w c H; [destruct H | ].
  cbn [run_listeners] in H. rewrite bind_trace in H.
  apply in_app_or in H; destruct H as [H | H].
  - destruct (fst l =? "mousemove")%string; [ | destruct H].
    eapply handleMouseMove_calls; exact H.
  - eapply IH; exact H.
Qed.

Lemma dispatch_world :
  forall e (w : World num),
    listeners (world (dispatch e w)) = listeners w /\
    closures (world (dispatch e w)) = closures w.
Proof.
  intros e w. unfold dispatch. rewrite bind_world.
  apply run_listeners_world.
Qed.

Lemma dispatch_calls :
  forall e (w : World num) c,
    In c (trace (dispatch e w)) ->
    c = getBoundingClientRect \/ is_render_call c = true.
Proof.
  intros e w c H. unfold dispatch in H. rewrite bind_trace in H.
  apply in_app_or in H; destruct H as [H | H]; [destruct H | ].
  eapply run_listeners_calls; exact H.
Qed.

Lemma dispatch_all_world :
  forall es (w : World num),
    listeners (world (dispatch_all es w)) = listeners w /\
    closures (world (dispatch_all es w)) = closures w.
Proof.
  induction es as [ | e rest IH]; intro w; [split; reflexivity | ].
  cbn [dispatch_all]. rewrite bind_world.
  destruct (IH (world (dispatch e w))) as [E1 E2].
  destruct (dispatch_world e w) as [F1 F2].
  split; congruence.
Qed.

(** Whatever is registered, delivering events makes only the handler's
    calls: the rectangle query and the renderer's commands. *)
Lemma dispatch_all_calls :
  forall es (w : World num) c,
    In c (trace (dispatch_all es w)) ->
    c = getBoundingClientRect \/ is_render_call c = true.
Proof.
  induction es as [ | e rest IH]; intros w c H; [destruct H | ].
  cbn [dispatch_all] in H. rewrite bind_trace in H.
  apply in_app_or in H; destruct H as [H | H].
  - eapply dispatch_calls; exact H.
  - eapply IH; exact H.
Qed.

(** Without a listener an event does nothing. *)
Lemma dispatch_all_unheard :
  forall es (w : World num),
    listeners w = [] -> dispatch_all es w = (tt, w, []).
Proof.
  induction es as [ | e rest IH]; intros w L; [reflexivity | ].
  cbn [dispatch_all]. unfold bind at 1.
  assert (E : dispatch e w = (tt, w, [])).
  { unfold dispatch, bind, get. rewrite L. reflexivity. }
  rewrite E, (IH w L). reflexivity.
Qed.

(** With the one listener of the component, an event is one run of the
    handler. *)
Lemma dispatch_heard :
  forall h e (w : World num),
    listeners w = [("mousemove", h)] ->
    dispatch e w = handleMouseMove h (fst e) (snd e) w.
Proof.
  intros h e w L. unfold dispatch, bind, get. rewrite L. reflexivity.
Qed.

End Runs.

(** ** Mounting *)

Section Mounting.

Context {num : Type} {NUM : JSNumber num}.

Local Open Scope gl_scope.
Local Open Scope string_scope.

(** A mount that goes through: the value, the state and the calls. *)
Lemma effect_succeeds :
  forall canvas gl vertexShader fragmentShader shaderProgram (w : World num),
    canvas_getContext canvas "webgl" = Some gl ->
    Succeeds gl vertexShader fragmentShader shaderProgram ->
    listeners w = [] ->
    let h := handler_of canvas gl shaderProgram (closures w) in
    effect (Some canvas) w =
    (cleanup h,
     {| topVertexRef := topVertexRef w;
        listeners := [("mousemove", h)];
        closures := S (closures w) |},
     (setup_calls vertexShader fragmentShader shaderProgram
      ++ upload_calls (position (h_buffers h))
      ++ trace (drawScene gl (h_programInfo h) (h_buffers h)
                          (topVertexRef w) w)
      ++ [addEventListener "mousemove" (closure h)])%list).
Proof.
  intros canvas gl vs fs p w Hctx [V1 V2 F1 F2 P1 P2] L h.
  unfold_effect. rewrite Hctx; cbn.
  rewrite V1; cbn. rewrite V2; cbn. rewrite F1; cbn. rewrite F2; cbn.
  rewrite P1; cbn. rewrite P2; cbn. rewrite L; cbn.
  reflexivity.
Qed.

(** The effect returns a cleanup only on such a mount. *)
Lemma effect_cleanup_inv :
  forall canvasRef_current (w : World num) h,
    value (effect canvasRef_current w) = cleanup h ->
    exists canvas gl vertexShader fragmentShader shaderProgram,
      canvasRef_current = Some canvas /\
      canvas_getContext canvas "webgl" = Some gl /\
      Succeeds gl vertexShader fragmentShader shaderProgram /\
      h = handler_of canvas gl shaderProgram (closures w).
Proof.
  intros cr w h. unfold_effect.
  destruct cr as [canvas | ]; cbn; [ | discriminate].
  repeat answer; try discriminate.
  intro E.
  match goal with
  | V : gl_createShader ?gl VERTEX_SHADER = Some ?vs,
    F : gl_createShader ?gl FRAGMENT_SHADER = Some ?fs,
    P : gl_createProgram ?gl = Some ?p |- _ =>
      exists canvas, gl, vs, fs, p
  end.
  repeat split; try assumption.
  destruct (existsb _ _); cbn in E; injection E as <-; reflexivity.
Qed.

(** A mount that returns no cleanup leaves the state alone and has made
    none of the renderer's calls, no upload and no registration. *)
Lemma effect_aborted :
  forall canvasRef_current (w : World num),
    value (effect canvasRef_current w) = no_cleanup ->
    world (effect canvasRef_current w) = w /\
    forallb (fun c => negb (is_render_call c || is_bufferData c
                            || is_addEventListener c))
            (trace (effect canvasRef_current w)) = true.
Proof.
  intros cr w. unfold_effect.
  destruct cr as [canvas | ]; cbn; [ | split; reflexivity].
  repeat answer; try (split; reflexivity); try discriminate.
  destruct (existsb _ _); cbn; discriminate.
Qed.

End Mounting.

(** ** Initialization *)

Section Initialization.

Context {num : Type} {NUM : JSNumber num}.

Local Open Scope gl_scope.
Local Open Scope string_scope.

(** C10. [initShaderProgram] loads the fragment stage after the vertex
    stage whatever the vertex stage gave: its calls start with those of the
    two [loadShader] runs, so a fragment shader that the driver creates is
    always compiled; and when the driver rejects both sources, each stage
    logs its own diagnostic (and deletes its shader) before [null] is
    returned. *)
Theorem initShaderProgram_loads_both_stages :
  forall gl vsSource fsSource (w : World num),
    let r := initShaderProgram gl vsSource fsSource w in
    (exists rest,
       trace r = (trace (loadShader gl VERTEX_SHADER vsSource w)
                  ++ trace (loadShader gl FRAGMENT_SHADER fsSource w)
                  ++ rest)%list) /\
    (forall fragmentShader,
       gl_createShader gl FRAGMENT_SHADER = Some fragmentShader ->
       In (compileShader fragmentShader) (trace r)) /\
    (forall vertexShader fragmentShader,
       gl_createShader gl VERTEX_SHADER = Some vertexShader ->
       gl_createShader gl FRAGMENT_SHADER = Some fragmentShader ->
       gl_getShaderParameter gl vertexShader COMPILE_STATUS = false ->
       gl_getShaderParameter gl fragmentShader COMPILE_STATUS = false ->
       r = (None, w,
            [createShader VERTEX_SHADER;
             shaderSource vertexShader vsSource;
             compileShader vertexShader;
             getShaderParameter vertexShader COMPILE_STATUS;
             getShaderInfoLog vertexShader;
             console_error [Some "An error occurred compiling the shaders:";
                            gl_getShaderInfoLog gl vertexShader];
             deleteShader vertexShader;
             createShader FRAGMENT_SHADER;
             shaderSource fragmentShader fsSource;
             compileShader fragmentShader;
             getShaderParameter fragmentShader COMPILE_STATUS;
             getShaderInfoLog fragmentShader;
             console_error [Some "An error occurred compiling the shaders:";
                            gl_getShaderInfoLog gl fragmentShader];
             deleteShader fragmentShader])).
Proof.
  intros gl vs fs w r; subst r; split; [ | split].
  - unfold initShaderProgram.
    rewrite bind_trace, bind_trace.
    assert (W : forall type source,
               world (loadShader gl type source w) = w).
    { intros type source; unfold_effect.
      repeat answer; reflexivity. }
    rewrite W. eexists. reflexivity.
  - intros f F. unfold_effect. rewrite F; cbn.
    repeat answer; find_call.
  - intros v f V F SV SF. unfold_effect.
    rewrite V; cbn. rewrite SV; cbn. rewrite F; cbn. rewrite SF; cbn.
    reflexivity.
Qed.

(** C3. When initialization fails (no context, or a stage that the driver
    created does not compile, or the program does not link), the effect
    logs the diagnostic of that failure and returns without a cleanup: the
    state is as before, so no listener is registered, and the calls contain
    none of the renderer's commands, no upload and no [addEventListener]. *)
Theorem failed_initialization_aborts :
  forall canvas diagnostic (w : World num),
    InitFailure canvas diagnostic ->
    let r := effect (Some canvas) w in
    In (console_error diagnostic) (trace r) /\
    value r = no_cleanup /\
    world r = w /\
    forallb (fun c => negb (is_render_call c || is_bufferData c
                            || is_addEventListener c)) (trace r) = true.
Proof.
  intros canvas diagnostic w F r.
  assert (A : In (console_error diagnostic) (trace r) /\ value r = no_cleanup).
  { subst r; unfold_effect.
    destruct F as [C | gl type shader C T S B | gl vs fs p C V VB F FB P PB];
      rewrite C; cbn.
    - split; [find_call | reflexivity].
    - destruct T as [-> | ->].
      + rewrite S; cbn. rewrite B; cbn.
        repeat answer; (split; [find_call | reflexivity]).
      + destruct (gl_createShader gl VERTEX_SHADER) as [vs | ] eqn:V; cbn.
        * destruct (gl_getShaderParameter gl vs COMPILE_STATUS) eqn:VB; cbn;
            rewrite S; cbn; rewrite B; cbn;
            (split; [find_call | reflexivity]).
        * rewrite S; cbn. rewrite B; cbn.
          split; [find_call | reflexivity].
    - rewrite V; cbn. rewrite VB; cbn. rewrite F; cbn. rewrite FB; cbn.
      rewrite P; cbn. rewrite PB; cbn.
      split; [find_call | reflexivity]. }
  destruct A as [A1 A2].
  destruct (@effect_aborted _ _ (Some canvas) w A2) as [A3 A4].
  repeat split; assumption.
Qed.

End Initialization.

(** ** The life of an instance *)

Section Lifecycle.

Context {num : Type} {NUM : JSNumber num}.

Local Open Scope gl_scope.
Local Open Scope string_scope.

Lemma filter_none :
  forall A (f : A -> bool) (l : list A),
    (forall a, In a l -> f a = false) -> filter f l = [].
Proof.
  induction l as [ | a l IH]; intro H; [reflexivity | ].
  cbn. rewrite (H a (or_introl eq_refl)).
  apply IH. intros b Hb. apply H. right. exact Hb.
Qed.

Lemma handler_call_kinds :
  forall c : Call num,
    c = getBoundingClientRect \/ is_render_call c = true ->
    is_bufferData c = false /\ is_deletion c = false /\
    is_addEventListener c = false.
Proof.
  intros c [-> | H]; [repeat split | ].
  destruct c; try discriminate H; repeat split.
Qed.

Lemma mounted_value :
  forall canvasRef_current during (w : World num),
    value (mounted canvasRef_current during w) =
    value (effect canvasRef_current w).
Proof.
  intros cr es w. unfold mounted.
  rewrite bind_value, bind_value. reflexivity.
Qed.

Lemma mounted_world :
  forall canvasRef_current during (w : World num),
    world (mounted canvasRef_current during w) =
    world (dispatch_all during (world (effect canvasRef_current w))).
Proof.
  intros cr es w. unfold mounted.
  rewrite bind_world, bind_world. reflexivity.
Qed.

Lemma mounted_trace :
  forall canvasRef_current during (w : World num),
    trace (mounted canvasRef_current during w) =
    (trace (effect canvasRef_current w)
     ++ trace (dispatch_all during (world (effect canvasRef_current w))))%list.
Proof.
  intros cr es w. unfold mounted.
  rewrite bind_trace, bind_trace. cbn. rewrite app_nil_r. reflexivity.
Qed.

Lemma lifecycle_trace :
  forall canvasRef_current during after (w : World num),
    let m := mounted canvasRef_current during w in
    let u := run_cleanup (value m) (world m) in
    trace (lifecycle canvasRef_current during after w) =
    (trace m ++ trace u ++ trace (dispatch_all after (world u)))%list.
Proof.
  intros cr es1 es2 w m u. unfold lifecycle.
  rewrite bind_trace, bind_trace. reflexivity.
Qed.

Lemma run_cleanup_calls :
  forall c (w : World num) k,
    In k (trace (run_cleanup c w)) ->
    exists h, c = cleanup h /\ k = removeEventListener "mousemove" (closure h).
Proof.
  intros [ | h] w k H; cbn in H; [destruct H | ].
  destruct H as [<- | []]. exists h. split; reflexivity.
Qed.

Lemma run_cleanup_removes :
  forall h (w : World num),
    listeners w = [("mousemove", h)] ->
    listeners (world (run_cleanup (cleanup h) w)) = [].
Proof.
  intros h w L. cbn. rewrite L. cbn.
  unfold same_listener; cbn. rewrite Nat.eqb_refl. reflexivity.
Qed.

(** The state in which a mount and the events that follow it leave the
    canvas: no listener when the effect returned no cleanup, the one
    listener of the cleanup otherwise. *)
Lemma mounted_listeners :
  forall canvasRef_current during (w : World num),
    listeners w = [] ->
    let m := mounted canvasRef_current during w in
    match value m with
    | no_cleanup => listeners (world m) = []
    | cleanup h => listeners (world m) = [("mousemove", h)]
    end.
Proof.
  intros cr es w L m; subst m.
  rewrite mounted_value, mounted_world.
  destruct (dispatch_all_world es (world (effect cr w))) as [E _].
  rewrite E.
  destruct (value (effect cr w)) as [ | h] eqn:V.
  - destruct (@effect_aborted _ _ cr w V) as [-> _]. exact L.
  - destruct (@effect_cleanup_inv _ _ cr w _ V)
      as (canvas & gl & vs & fs & p & -> & C & S & ->).
    rewrite (@effect_succeeds _ _ canvas gl vs fs p w C S L). reflexivity.
Qed.

(** C9. From a canvas without listeners: after the mount, any pointer
    events and the unmount, the canvas has no listener left, and the pointer
    events delivered afterwards make no call and leave the state, hence the
    top vertex, as it was; when the mount had registered its listener, the
    cleanup is the one call that removes it. *)
Theorem unmount_removes_listener :
  forall canvasRef_current during after (w : World num),
    listeners w = [] ->
    let m := mounted canvasRef_current during w in
    let u := run_cleanup (value m) (world m) in
    let a := dispatch_all after (world u) in
    listeners (world u) = [] /\
    trace a = [] /\
    world a = world u /\
    topVertexRef (world a) = topVertexRef (world m) /\
    (forall h, value m = cleanup h ->
       listeners (world m) = [("mousemove", h)] /\
       trace u = [removeEventListener "mousemove" (closure h)]).
Proof.
  intros cr es1 es2 w L m u a.
  pose proof (@mounted_listeners cr es1 w L) as I; cbn zeta in I.
  fold m in I.
  assert (U : listeners (world u) = [] /\
              topVertexRef (world u) = topVertexRef (world m)).
  { subst u. destruct (value m) as [ | h].
    - split; [exact I | reflexivity].
    - split; [exact (@run_cleanup_removes h (world m) I) | reflexivity]. }
  destruct U as [U1 U2].
  subst a. rewrite (@dispatch_all_unheard _ _ es2 (world u) U1).
  repeat split; try assumption.
  - subst u. rewrite H in I. exact I.
  - subst u. rewrite H. reflexivity.
Qed.

(** C5. When the mount of a new instance goes through, its calls are: the
    set-up, which contains no renderer command, no upload, no registration
    and no query of the handler; the upload of the buffer; the renderer's
    commands for the top vertex [(0, 1)]; and, last, the registration of the
    [mousemove] listener.  So exactly one draw is made, with [(0, 1)]. *)
Theorem initial_draw :
  forall canvasRef_current h,
    let r := effect canvasRef_current (initial_world (num := num)) in
    value r = cleanup h ->
    (exists set_up,
       trace r =
         (set_up
          ++ [createBuffer;
              bindBuffer ARRAY_BUFFER (position (h_buffers h));
              bufferData ARRAY_BUFFER positions STATIC_DRAW]
          ++ trace (drawScene (h_gl h) (h_programInfo h) (h_buffers h)
                              {| x := lit 0; y := lit 1 |} initial_world)
          ++ [addEventListener "mousemove" (closure h)])%list /\
       forall c, In c set_up ->
         c <> getBoundingClientRect /\ is_render_call c = false /\
         is_bufferData c = false /\ is_addEventListener c = false) /\
    filter is_drawArrays (trace r) = [drawArrays TRIANGLES 0 3] /\
    filter is_uniform2f (trace r) =
      [uniform2f (uniformLocations_topVertex (h_programInfo h))
                 (lit 0) (lit 1)] /\
    listeners (world r) = [("mousemove", h)] /\
    topVertexRef (world r) = {| x := lit 0; y := lit 1 |}.
Proof.
  intros cr h r V; subst r.
  destruct (@effect_cleanup_inv _ _ cr _ _ V)
    as (canvas & gl & vs & fs & p & -> & C & S & ->).
  rewrite (@effect_succeeds _ _ canvas gl vs fs p initial_world C S eq_refl).
  split; [ | repeat split].
  exists (setup_calls vs fs p). split; [reflexivity | ].
  intros c H. cbn in H.
  repeat (destruct H as [<- | H];
          [repeat split; discriminate | ]).
  destruct H.
Qed.

(** C6, as the code has it.  From a canvas without listeners, over the
    whole life of an instance (mount, pointer events, unmount, later
    events): a deletion call is always [deleteShader] on a shader whose
    compilation has failed, so no program and no buffer is ever deleted;
    and when the mount goes through there is no deletion call at all, the
    unmount included. *)
Theorem deletion_only_of_rejected_shader :
  forall canvasRef_current during after (w : World num),
    let t := trace (lifecycle canvasRef_current during after w) in
    (forall c, In c t -> is_deletion c = true ->
       exists canvas gl shader,
         canvasRef_current = Some canvas /\
         canvas_getContext canvas "webgl" = Some gl /\
         gl_getShaderParameter gl shader COMPILE_STATUS = false /\
         c = deleteShader shader) /\
    (forall h, value (effect canvasRef_current w) = cleanup h ->
       never_releases t = true).
Proof.
  intros cr es1 es2 w t.
  assert (D : forall c, In c t -> is_deletion c = true ->
                In c (trace (effect cr w))).
  { intros c H Hd. subst t.
    rewrite lifecycle_trace, mounted_trace in H; cbn zeta in H.
    rewrite <- app_assoc in H.
    apply in_app_or in H; destruct H as [H | H]; [exact H | exfalso].
    apply in_app_or in H; destruct H as [H | H].
    { apply dispatch_all_calls, handler_call_kinds in H.
      destruct H as (_ & H & _). congruence. }
    apply in_app_or in H; destruct H as [H | H].
    { apply run_cleanup_calls in H. destruct H as (h & _ & ->).
      discriminate Hd. }
    apply dispatch_all_calls, handler_call_kinds in H.
    destruct H as (_ & H & _). congruence. }
  split.
  - intros c H Hd. specialize (D c H Hd). clear H t.
    revert D. unfold_effect.
    destruct cr as [canvas | ]; cbn; [ | intros []].
    destruct (canvas_getContext canvas "webgl") as [gl | ] eqn:C; cbn.
    2:{ intro D.
        repeat (destruct D as [E | D]; [subst c; discriminate Hd | ]).
        destruct D. }
    repeat answer; try destruct (existsb _ _); cbn; intro D;
      repeat (destruct D as [E | D];
              [subst c;
               first [discriminate Hd
                     | eexists canvas, gl, _;
                       repeat split; [eassumption | eassumption] ] | ]);
      destruct D.
  - intros h V. unfold never_releases.
    apply forallb_forall. intros c H.
    destruct (is_deletion c) eqn:Hd; [exfalso | reflexivity].
    specialize (D c H Hd).
    destruct (@effect_cleanup_inv _ _ cr w _ V)
      as (canvas & gl & vs & fs & p & -> & C & [V1 V2 F1 F2 P1 P2] & ->).
    revert D. unfold_effect. rewrite C; cbn.
    rewrite V1; cbn. rewrite V2; cbn. rewrite F1; cbn. rewrite F2; cbn.
    rewrite P1; cbn. rewrite P2; cbn.
    destruct (existsb _ _); cbn; intro D;
      repeat (destruct D as [E | D]; [subst c; discriminate Hd | ]);
      destruct D.
Qed.

(** C4. From a canvas without listeners, when the mount goes through: over
    the whole life of the instance the buffer is written once, by the mount,
    with top [(0, 1)], bottom left [(-1, -1)], bottom right [(1, -1)];
    delivering pointer events never writes a buffer; and each pointer event
    on the mounted instance changes the top-vertex state only and makes the
    rectangle query and the renderer's commands for that top vertex. *)
Theorem geometry_written_once :
  forall canvasRef_current during after h (w : World num),
    listeners w = [] ->
    value (effect canvasRef_current w) = cleanup h ->
    let geometry :=
      bufferData ARRAY_BUFFER
                 [lit 0; lit 1; lit (-1); lit (-1); lit 1; lit (-1)]
                 STATIC_DRAW in
    filter is_bufferData
           (trace (lifecycle canvasRef_current during after w)) = [geometry] /\
    filter is_bufferData (trace (effect canvasRef_current w)) = [geometry] /\
    (forall events w', filter is_bufferData
                              (trace (dispatch_all events w')) = []) /\
    (forall e w', listeners w' = [("mousemove", h)] ->
       exists v,
         dispatch e w' =
         (tt, with_topVertex v w',
          getBoundingClientRect ::
          trace (drawScene (h_gl h) (h_programInfo h) (h_buffers h) v w'))).
Proof.
  intros cr es1 es2 h w L V geometry.
  assert (Q : forall events w',
            filter is_bufferData (trace (dispatch_all events w')) = []).
  { intros es w'. apply filter_none. intros c H.
    apply dispatch_all_calls, handler_call_kinds in H. tauto. }
  assert (E : filter is_bufferData (trace (effect cr w)) = [geometry]).
  { destruct (@effect_cleanup_inv _ _ cr w _ V)
      as (canvas & gl & vs & fs & p & -> & C & S & ->).
    rewrite (@effect_succeeds _ _ canvas gl vs fs p w C S L). reflexivity. }
  split; [ | split; [exact E | split; [exact Q | ] ] ].
  - rewrite lifecycle_trace, mounted_trace; cbn zeta.
    rewrite !filter_app, E, !Q, app_nil_r.
    rewrite (@filter_none _ is_bufferData (trace (run_cleanup _ _)));
      [reflexivity | ].
    intros c H. apply run_cleanup_calls in H.
    destruct H as (h' & _ & ->). reflexivity.
  - intros e w' L'. rewrite (@dispatch_heard _ _ h e w' L').
    eexists. reflexivity.
Qed.

End Lifecycle.

(** ** Concrete runs on doubles *)

Section Binary64.

Local Open Scope string_scope.

Lemma upto_true :
  forall (p : Z -> bool) (n : nat),
    Sample.upto n p = true ->
    forall z, (0 <= z <= Z.of_nat n)%Z -> p z = true.
Proof.
  induction n as [ | n IH]; intros U z Hz.
  - cbn in U. replace z with 0%Z by lia. exact U.
  - cbn [Sample.upto] in U. apply andb_prop in U. destruct U as [U1 U2].
    destruct (Z.eq_dec z (Z.of_nat (S n))) as [-> | N]; [exact U1 | ].
    apply IH; [exact U2 | lia].
Qed.

(** On the 640 by 480 canvas of the component, with its corner at client
    position (10, 20), the four offsets of the specification give exactly
    the four points, in double arithmetic. *)
Example binary64_corners :
  let at_offset (px py : Z) : Vec2 float :=
    let e := Sample.pointer (10 + px)%Z (20 + py)%Z in
    topVertexRef (world (handleMouseMove Sample.handler_ok (fst e) (snd e)
                                         initial_world)) in
  at_offset 0%Z 0%Z = {| x := (-1)%float; y := 1%float |} /\
  at_offset 640%Z 480%Z = {| x := 1%float; y := (-1)%float |} /\
  at_offset 320%Z 240%Z = {| x := 0%float; y := 0%float |} /\
  at_offset 320%Z 0%Z = {| x := 0%float; y := 1%float |}.
Proof. vm_compute. repeat split. Qed.

(** X14. On that canvas, every whole-pixel offset inside the canvas gives a top
    vertex inside the square, in double arithmetic. *)
Lemma binary64_range_on_pixels :
  forall (px py : Z) (w : World float),
    (0 <= px <= 640)%Z -> (0 <= py <= 480)%Z ->
    let e := Sample.pointer (10 + px)%Z (20 + py)%Z in
    let v := topVertexRef (world (handleMouseMove Sample.handler_ok
                                    (fst e) (snd e) w)) in
    (PrimFloat.leb (-1) (x v) && PrimFloat.leb (x v) 1 = true /\
     PrimFloat.leb (-1) (y v) && PrimFloat.leb (y v) 1 = true)%float.
Proof.
  intros px py w Hx Hy e v.
  pose (fx := fun px : Z =>
    let t := PrimFloat.sub (PrimFloat.mul (PrimFloat.div
               (PrimFloat.sub (f64_lit (10 + px)) (f64_lit 10))
               (f64_lit 640)) (f64_lit 2)) (f64_lit 1) in
    (PrimFloat.leb (-1) t && PrimFloat.leb t 1)%float).
  pose (fy := fun py : Z =>
    let t := PrimFloat.sub (f64_lit 1) (PrimFloat.mul (PrimFloat.div
               (PrimFloat.sub (f64_lit (20 + py)) (f64_lit 20))
               (f64_lit 480)) (f64_lit 2)) in
    (PrimFloat.leb (-1) t && PrimFloat.leb t 1)%float).
  assert (Ux : Sample.upto 640 fx = true) by (vm_compute; reflexivity).
  assert (Uy : Sample.upto 480 fy = true) by (vm_compute; reflexivity).
  split.
  - exact (@upto_true fx 640 Ux px Hx).
  - exact (@upto_true fy 480 Uy py Hy).
Qed.

(** C6 as stated fails: when the driver rejects the shader sources, the
    mount calls [deleteShader]. *)
Lemma deleteShader_on_rejected_source :
  never_releases
    (trace (lifecycle (Some Sample.canvas_rejecting) [] []
                      (initial_world (num := float)))) = false.
Proof. vm_compute. reflexivity. Qed.

Example rejected_sources_run :
  trace (effect (Some Sample.canvas_rejecting) (initial_world (num := float)))
  = [getContext "webgl";
     createShader VERTEX_SHADER;
     shaderSource (ShaderHandle 1) GLSL.vsSource;
     compileShader (ShaderHandle 1);
     getShaderParameter (ShaderHandle 1) COMPILE_STATUS;
     getShaderInfoLog (ShaderHandle 1);
     console_error [Some "An error occurred compiling the shaders:";
                    Some "ERROR: vertex"];
     deleteShader (ShaderHandle 1);
     createShader FRAGMENT_SHADER;
     shaderSource (ShaderHandle 2) GLSL.fsSource;
     compileShader (ShaderHandle 2);
     getShaderParameter (ShaderHandle 2) COMPILE_STATUS;
     getShaderInfoLog (ShaderHandle 2);
     console_error [Some "An error occurred compiling the shaders:";
                    Some "ERROR: fragment"];
     deleteShader (ShaderHandle 2)].
Proof. reflexivity. Qed.

Lemma initShaderProgram_loads_both_stages_witness :
  initShaderProgram Sample.gl_rejecting GLSL.vsSource GLSL.fsSource
                    (initial_world (num := float)) =
  (None, initial_world,
   [createShader VERTEX_SHADER;
    shaderSource (ShaderHandle 1) GLSL.vsSource;
    compileShader (ShaderHandle 1);
    getShaderParameter (ShaderHandle 1) COMPILE_STATUS;
    getShaderInfoLog (ShaderHandle 1);
    console_error [Some "An error occurred compiling the shaders:";
                   Some "ERROR: vertex"];
    deleteShader (ShaderHandle 1);
    createShader FRAGMENT_SHADER;
    shaderSource (ShaderHandle 2) GLSL.fsSource;
    compileShader (ShaderHandle 2);
    getShaderParameter (ShaderHandle 2) COMPILE_STATUS;
    getShaderInfoLog (ShaderHandle 2);
    console_error [Some "An error occurred compiling the shaders:";
                   Some "ERROR: fragment"];
    deleteShader (ShaderHandle 2)]).
Proof.
  apply (proj2 (proj2 (initShaderProgram_loads_both_stages
                         Sample.gl_rejecting GLSL.vsSource GLSL.fsSource
                         (initial_world (num := float))))
           (ShaderHandle 1) (ShaderHandle 2));
    reflexivity.
Defined.

Lemma failed_initialization_aborts_witness :
  let r := effect (Some Sample.canvas_rejecting)
                  (initial_world (num := float)) in
  In (console_error [Some "An error occurred compiling the shaders:";
                     Some "ERROR: fragment"]) (trace r) /\
  value r = no_cleanup /\
  world r = initial_world /\
  forallb (fun c => negb (is_render_call c || is_bufferData c
                          || is_addEventListener c)) (trace r) = true.
Proof.
  apply (@failed_initialization_aborts float binary64
           Sample.canvas_rejecting _ initial_world).
  apply (@compile_failure Sample.canvas_rejecting Sample.gl_rejecting
           FRAGMENT_SHADER (ShaderHandle 2));
    [reflexivity | right; reflexivity | reflexivity | reflexivity].
Defined.

Lemma initial_draw_witness :
  let r := effect (Some Sample.canvas_ok) (initial_world (num := float)) in
  filter is_drawArrays (trace r) = [drawArrays TRIANGLES 0 3] /\
  filter is_uniform2f (trace r) =
    [uniform2f (Some (UniformHandle 4)) (lit 0) (lit 1)] /\
  listeners (world r) = [("mousemove", Sample.handler_ok)] /\
  topVertexRef (world r) = {| x := lit 0; y := lit 1 |}.
Proof.
  apply (@initial_draw float binary64 (Some Sample.canvas_ok)
           Sample.handler_ok).
  reflexivity.
Defined.

Lemma geometry_written_once_witness :
  filter is_bufferData
    (trace (lifecycle (Some Sample.canvas_ok) Sample.moves [Sample.pointer 10 20]
                      (initial_world (num := float)))) =
  [bufferData ARRAY_BUFFER
              [lit 0; lit 1; lit (-1); lit (-1); lit 1; lit (-1)]
              STATIC_DRAW].
Proof.
  exact (proj1 (@geometry_written_once float binary64 (Some Sample.canvas_ok)
                  Sample.moves [Sample.pointer 10 20] Sample.handler_ok
                  initial_world eq_refl eq_refl)).
Defined.

Lemma deletion_only_of_rejected_shader_witness :
  never_releases
    (trace (lifecycle (Some Sample.canvas_ok) Sample.moves [Sample.pointer 10 20]
                      (initial_world (num := float)))) = true.
Proof.
  exact (proj2 (@deletion_only_of_rejected_shader float binary64
                  (Some Sample.canvas_ok) Sample.moves [Sample.pointer 10 20]
                  initial_world) Sample.handler_ok eq_refl).
Defined.

Lemma unmount_removes_listener_witness :
  let m := mounted (Some Sample.canvas_ok) Sample.moves
                   (initial_world (num := float)) in
  let u := run_cleanup (value m) (world m) in
  let a := dispatch_all [Sample.pointer 10 20] (world u) in
  listeners (world u) = [] /\ trace a = [] /\ world a = world u.
Proof.
  intros m u a.
  pose proof (@unmount_removes_listener float binary64
                (Some Sample.canvas_ok) Sample.moves [Sample.pointer 10 20]
                initial_world eq_refl) as U.
  exact (conj (proj1 U) (conj (proj1 (proj2 U)) (proj1 (proj2 (proj2 U))))).
Defined.

End Binary64.

(** * Further properties of the code *)

(** ** Loading and linking *)

Section Loading.

Context {num : Type} {NUM : JSNumber num}.

Local Open Scope gl_scope.
Local Open Scope string_scope.

(** X1. [loadShader] leaves the state alone.  A shader that it returns was
    created for the requested type and has compiled, and the run has made
    four calls, none of them a log or a deletion.  When it returns [null]
    although the driver had created a shader, that shader failed to compile,
    its info log was logged and the run ends on its deletion.  When the
    driver creates no shader, [null] comes back after the one call, without
    a log. *)
Theorem loadShader_outcome :
  forall gl type source (w : World num),
    let r := loadShader gl type source w in
    world r = w /\
    (forall shader, value r = Some shader ->
       gl_createShader gl type = Some shader /\
       gl_getShaderParameter gl shader COMPILE_STATUS = true /\
       trace r = [createShader type; shaderSource shader source;
                  compileShader shader;
                  getShaderParameter shader COMPILE_STATUS]) /\
    (forall shader, value r = None ->
       gl_createShader gl type = Some shader ->
       gl_getShaderParameter gl shader COMPILE_STATUS = false /\
       exists before,
         trace r =
           (before
            ++ [console_error [Some "An error occurred compiling the shaders:";
                               gl_getShaderInfoLog gl shader];
                deleteShader shader])%list /\
         forallb (fun c => negb (is_deletion c || is_console_error c))
                 before = true) /\
    (gl_createShader gl type = None -> r = (None, w, [createShader type])).
Proof.
  intros gl type source w r; subst r. unfold_effect.
  destruct (gl_createShader gl type) as [s | ] eqn:C; cbn.
  - destruct (gl_getShaderParameter gl s COMPILE_STATUS) eqn:B; cbn.
    + split; [reflexivity | split; [ | split] ].
      * intros shader E; injection E as <-.
        split; [reflexivity | split; [exact B | reflexivity] ].
      * intros shader E; discriminate E.
      * intro E; discriminate E.
    + split; [reflexivity | split; [ | split] ].
      * intros shader E; discriminate E.
      * intros shader _ E; injection E as <-.
        split; [exact B | ].
        exists [createShader type; shaderSource s source; compileShader s;
                getShaderParameter s COMPILE_STATUS; getShaderInfoLog s].
        split; reflexivity.
      * intro E; discriminate E.
  - split; [reflexivity | split; [ | split] ].
    + intros shader E; discriminate E.
    + intros shader _ E; discriminate E.
    + reflexivity.
Qed.

(** X3. When both stages compile and the program is created but does not link,
    [initShaderProgram] returns [null] after exactly these calls: the program
    info log is logged once and nothing is deleted, neither the program nor
    the two compiled shaders. *)
Theorem link_failure_releases_nothing :
  forall gl vsSource fsSource vertexShader fragmentShader shaderProgram
         (w : World num),
    gl_createShader gl VERTEX_SHADER = Some vertexShader ->
    gl_getShaderParameter gl vertexShader COMPILE_STATUS = true ->
    gl_createShader gl FRAGMENT_SHADER = Some fragmentShader ->
    gl_getShaderParameter gl fragmentShader COMPILE_STATUS = true ->
    gl_createProgram gl = Some shaderProgram ->
    gl_getProgramParameter gl shaderProgram LINK_STATUS = false ->
    let r := initShaderProgram gl vsSource fsSource w in
    r = (None, w,
         [createShader VERTEX_SHADER;
          shaderSource vertexShader vsSource;
          compileShader vertexShader;
          getShaderParameter vertexShader COMPILE_STATUS;
          createShader FRAGMENT_SHADER;
          shaderSource fragmentShader fsSource;
          compileShader fragmentShader;
          getShaderParameter fragmentShader COMPILE_STATUS;
          createProgram;
          attachShader shaderProgram vertexShader;
          attachShader shaderProgram fragmentShader;
          linkProgram shaderProgram;
          getProgramParameter shaderProgram LINK_STATUS;
          getProgramInfoLog shaderProgram;
          console_error [Some "Unable to initialize the shader program:";
                         gl_getProgramInfoLog gl shaderProgram]]) /\
    never_releases (trace r) = true.
Proof.
  intros gl vs fs v f p w V VB F FB P PB r; subst r. unfold_effect.
  rewrite V; cbn. rewrite VB; cbn. rewrite F; cbn. rewrite FB; cbn.
  rewrite P; cbn. rewrite PB; cbn.
  split; reflexivity.
Qed.

(** X2. [initShaderProgram] returns a program exactly when the driver created
    and compiled both shaders and created and linked the program; the state
    is never changed.  A run that returns [null] without any failed compile
    or link (the driver gave no shader, or no program) logs nothing. *)
Theorem initShaderProgram_outcome :
  forall gl vsSource fsSource (w : World num),
    let r := initShaderProgram gl vsSource fsSource w in
    world r = w /\
    (forall shaderProgram,
       value r = Some shaderProgram <->
       exists vertexShader fragmentShader,
         Succeeds gl vertexShader fragmentShader shaderProgram) /\
    (value r = None ->
       (forall shader, In (compileShader shader) (trace r) ->
          gl_getShaderParameter gl shader COMPILE_STATUS = true) ->
       (forall prog, In (linkProgram prog) (trace r) ->
          gl_getProgramParameter gl prog LINK_STATUS = true) ->
       filter is_console_error (trace r) = []).
Proof.
  intros gl vs fs w r; subst r. unfold_effect.
  split; [ | split].
  - repeat answer; reflexivity.
  - intro p; split.
    + repeat answer; intro E; try discriminate E.
      injection E as <-.
      eexists _, _. split; eassumption.
    + intros (v & f & [V VB F FB P PB]).
      rewrite V; cbn. rewrite VB; cbn. rewrite F; cbn. rewrite FB; cbn.
      rewrite P; cbn. rewrite PB; cbn. reflexivity.
  - repeat answer; intros E HC HL; try reflexivity; try discriminate E;
      exfalso;
      repeat match goal with
      | B : gl_getShaderParameter gl ?s COMPILE_STATUS = false |- _ =>
          rewrite (HC s) in B; [discriminate B | find_call]
      | B : gl_getProgramParameter gl ?p LINK_STATUS = false |- _ =>
          rewrite (HL p) in B; [discriminate B | find_call]
      end.
Qed.

End Loading.

(** ** The mount, seen from outside *)

Section MountOutcome.

Context {num : Type} {NUM : JSNumber num}.

Local Open Scope gl_scope.
Local Open Scope string_scope.

(** X4. Every diagnostic that a mount logs reports a failure that happened: the
    context was unavailable, or a created stage did not compile (and the
    logged text is that shader's info log), or the program did not link. *)
Theorem logged_diagnostic_is_a_failure :
  forall canvas diagnostic (w : World num),
    In (console_error diagnostic) (trace (effect (Some canvas) w)) ->
    InitFailure canvas diagnostic.
Proof.
  intros canvas d w. unfold_effect.
  destruct (canvas_getContext canvas "webgl") as [gl | ] eqn:C; cbn.
  2:{ intros [E | [E | [] ] ]; [discriminate E | ].
      injection E as <-. apply context_unavailable. exact C. }
  repeat answer; try destruct (existsb _ _); cbn; intro H;
    repeat (destruct H as [E | H];
            [try discriminate E; injection E as <- | ]);
    try (destruct H);
    solve
      [ eapply link_failure; eassumption
      | eapply compile_failure;
        [ exact C | | eassumption | eassumption ];
        first [left; reflexivity | right; reflexivity] ].
Qed.

(** X5. The mount returns a cleanup exactly when the ref holds a canvas, the
    context is available, both shaders are created and compile, and the
    program is created and links.  What [createBuffer], [getAttribLocation]
    and [getUniformLocation] answer plays no part. *)
Theorem mount_succeeds_iff :
  forall canvasRef_current (w : World num),
    (exists h, value (effect canvasRef_current w) = cleanup h) <->
    (exists canvas gl vertexShader fragmentShader shaderProgram,
       canvasRef_current = Some canvas /\
       canvas_getContext canvas "webgl" = Some gl /\
       Succeeds gl vertexShader fragmentShader shaderProgram).
Proof.
  intros cr w; split.
  - intros [h V].
    destruct (@effect_cleanup_inv _ _ cr w h V)
      as (canvas & gl & vs & fs & p & E & C & S & _).
    exists canvas, gl, vs, fs, p.
    split; [exact E | split; [exact C | exact S] ].
  - intros (canvas & gl & vs & fs & p & -> & C & [V VB F FB P PB]).
    unfold_effect. rewrite C; cbn.
    rewrite V; cbn. rewrite VB; cbn. rewrite F; cbn. rewrite FB; cbn.
    rewrite P; cbn. rewrite PB; cbn.
    destruct (existsb _ _); cbn; eexists; reflexivity.
Qed.

(** X6. The calls of a mount that goes through, in full and in order, from any
    state: context, vertex stage, fragment stage, program (vertex shader
    attached first, linked after both), the two locations, the upload, the
    first frame with the current top vertex, the registration.  The buffer
    and the locations are used as the driver gave them, unchecked. *)
Theorem successful_mount_calls :
  forall canvas gl vertexShader fragmentShader shaderProgram (w : World num),
    canvas_getContext canvas "webgl" = Some gl ->
    Succeeds gl vertexShader fragmentShader shaderProgram ->
    let buffer := gl_createBuffer gl in
    let attribute := gl_getAttribLocation gl shaderProgram "aVertexPosition" in
    let uniform := gl_getUniformLocation gl shaderProgram "uTopVertex" in
    trace (effect (Some canvas) w) =
    [getContext "webgl";
     createShader VERTEX_SHADER;
     shaderSource vertexShader GLSL.vsSource;
     compileShader vertexShader;
     getShaderParameter vertexShader COMPILE_STATUS;
     createShader FRAGMENT_SHADER;
     shaderSource fragmentShader GLSL.fsSource;
     compileShader fragmentShader;
     getShaderParameter fragmentShader COMPILE_STATUS;
     createProgram;
     attachShader shaderProgram vertexShader;
     attachShader shaderProgram fragmentShader;
     linkProgram shaderProgram;
     getProgramParameter shaderProgram LINK_STATUS;
     getAttribLocation shaderProgram "aVertexPosition";
     getUniformLocation shaderProgram "uTopVertex";
     createBuffer;
     bindBuffer ARRAY_BUFFER buffer;
     bufferData ARRAY_BUFFER
                [lit 0; lit 1; lit (-1); lit (-1); lit 1; lit (-1)]
                STATIC_DRAW;
     clearColor (lit 0) (lit 0) (lit 0) (lit 1);
     clear COLOR_BUFFER_BIT;
     useProgram shaderProgram;
     bindBuffer ARRAY_BUFFER buffer;
     vertexAttribPointer attribute 2 FLOAT false 0 0;
     enableVertexAttribArray attribute;
     uniform2f uniform (x (topVertexRef w)) (y (topVertexRef w));
     drawArrays TRIANGLES 0 3;
     addEventListener "mousemove" (closures w)].
Proof.
  intros canvas gl vs fs p w C [V VB F FB P PB] buffer attribute uniform.
  unfold_effect. rewrite C; cbn.
  rewrite V; cbn. rewrite VB; cbn. rewrite F; cbn. rewrite FB; cbn.
  rewrite P; cbn. rewrite PB; cbn.
  destruct (existsb _ _); reflexivity.
Qed.

(** X7. A mount that returns no cleanup is final: from a canvas without
    listeners, the pointer events that follow, the unmount and the later
    events add no call and change nothing. *)
Theorem failed_mount_is_final :
  forall canvasRef_current during after (w : World num),
    listeners w = [] ->
    value (effect canvasRef_current w) = no_cleanup ->
    lifecycle canvasRef_current during after w =
    (tt, w, trace (effect canvasRef_current w)).
Proof.
  intros cr es1 es2 w L V.
  destruct (@effect_aborted _ _ cr w V) as [W _].
  unfold lifecycle, mounted, bind at 1 2 3.
  destruct (effect cr w) as [[c w1] t1] eqn:E.
  cbn in V, W. subst c w1.
  rewrite (@dispatch_all_unheard _ _ es1 w L). cbn.
  rewrite (@dispatch_all_unheard _ _ es2 w L). cbn.
  rewrite !app_nil_r. reflexivity.
Qed.

End MountOutcome.

(** ** Pointer events in sequence *)

Section EventSequences.

Context {num : Type} {NUM : JSNumber num}.

Local Open Scope gl_scope.
Local Open Scope string_scope.

(** The top vertex that the handler [h] computes for an event does not
    depend on the state. *)
Lemma handleMouseMove_position_any_world :
  forall h event rect (w w' : World num),
    topVertexRef (world (handleMouseMove h event rect w)) =
    topVertexRef (world (handleMouseMove h event rect w')).
Proof. intros; reflexivity. Qed.

Lemma handleMouseMove_trace_any_world :
  forall h event rect (w w' : World num),
    trace (handleMouseMove h event rect w) =
    trace (handleMouseMove h event rect w').
Proof. intros; reflexivity. Qed.

Lemma dispatch_all_heard_trace :
  forall h es (w : World num),
    listeners w = [("mousemove", h)] ->
    trace (dispatch_all es w) =
    flat_map (fun e => trace (handleMouseMove h (fst e) (snd e) w)) es.
Proof.
  intros h es; induction es as [ | e rest IH]; intros w L; [reflexivity | ].
  cbn [dispatch_all flat_map]. rewrite bind_trace.
  rewrite (@dispatch_heard _ _ h e w L).
  assert (L' : listeners (world (handleMouseMove h (fst e) (snd e) w)) =
               [("mousemove", h)]).
  { destruct (handleMouseMove_world h (fst e) (snd e) w) as [E _].
    rewrite E. exact L. }
  rewrite (IH _ L'). reflexivity.
Qed.

Lemma heard_draw_count :
  forall h es (w : World num),
    listeners w = [("mousemove", h)] ->
    List.length (filter is_drawArrays (trace (dispatch_all es w))) = List.length es.
Proof.
  intros h es w L. rewrite (@dispatch_all_heard_trace h es w L).
  clear L. induction es as [ | e rest IH]; [reflexivity | ].
  cbn [flat_map List.length]. rewrite filter_app, length_app, IH. reflexivity.
Qed.

(** X9. While the listener of the component is registered, each pointer event
    gives one frame, in the order of the events and with the position of
    that event: nothing is skipped, merged or deferred.  The uniform
    settings of a run of events are those positions, one per event, and each
    event makes nine calls. *)
Theorem one_frame_per_event :
  forall h events (w : World num),
    listeners w = [("mousemove", h)] ->
    let position e :=
      topVertexRef (world (handleMouseMove h (fst e) (snd e) w)) in
    let t := trace (dispatch_all events w) in
    filter is_uniform2f t =
      map (fun e => uniform2f (uniformLocations_topVertex (h_programInfo h))
                              (x (position e)) (y (position e))) events /\
    List.length (filter is_drawArrays t) = List.length events /\
    List.length t = (9 * List.length events)%nat.
Proof.
  intros h es w L position t; subst t.
  rewrite (@dispatch_all_heard_trace h es w L).
  clear L. induction es as [ | e rest IH]; [repeat split | ].
  destruct IH as (I1 & I2 & I3).
  cbn [flat_map map List.length].
  rewrite !filter_app, !length_app, I1, I2, I3.
  split; [reflexivity | split; [reflexivity | ] ].
  cbn [trace handleMouseMove]. cbn. lia.
Qed.

(** X10. The state keeps the position of the last event only: after any run of
    events that ends with [e], the top vertex is the one computed for [e]. *)
Theorem last_event_wins :
  forall h events e (w : World num),
    listeners w = [("mousemove", h)] ->
    let r := dispatch_all (events ++ [e])%list w in
    topVertexRef (world r) =
      topVertexRef (world (handleMouseMove h (fst e) (snd e) w)) /\
    listeners (world r) = listeners w /\
    closures (world r) = closures w.
Proof.
  intros h es e; induction es as [ | e0 rest IH]; intros w L r; subst r.
  - cbn [app dispatch_all]. rewrite bind_world.
    rewrite (@dispatch_heard _ _ h e w L). repeat split.
  - cbn [app dispatch_all]. rewrite bind_world.
    rewrite (@dispatch_heard _ _ h e0 w L).
    destruct (handleMouseMove_world h (fst e0) (snd e0) w) as [E1 E2].
    destruct (IH (world (handleMouseMove h (fst e0) (snd e0) w)))
      as (I1 & I2 & I3); [rewrite E1; exact L | ].
    rewrite I1, I2, I3, E1, E2. repeat split.
Qed.

(** X11. From a canvas without listeners, when the mount goes through: over the
    whole life of the instance there is one draw for the mount and one for
    each pointer event before the unmount, and none for the events after
    it. *)
Theorem draws_over_a_life :
  forall canvasRef_current during after h (w : World num),
    listeners w = [] ->
    value (effect canvasRef_current w) = cleanup h ->
    List.length (filter is_drawArrays
                   (trace (lifecycle canvasRef_current during after w))) =
    S (List.length during).
Proof.
  intros cr es1 es2 h w L V.
  rewrite lifecycle_trace, mounted_trace; cbn zeta.
  pose proof (@mounted_listeners _ _ cr es1 w L) as I; cbn zeta in I.
  rewrite mounted_value, V in I.
  destruct (@effect_cleanup_inv _ _ cr w h V)
    as (canvas & gl & vs & fs & p & -> & C & Sc & ->).
  set (h := handler_of canvas gl p (closures w)) in *.
  assert (W : listeners (world (effect (Some canvas) w)) = [("mousemove", h)]).
  { rewrite (@effect_succeeds _ _ canvas gl vs fs p w C Sc L). reflexivity. }
  rewrite !filter_app, !length_app, (@heard_draw_count h es1 _ W).
  rewrite (@effect_succeeds _ _ canvas gl vs fs p w C Sc L) at 1.
  rewrite mounted_value, V.
  rewrite (@dispatch_all_unheard _ _ es2 _
             (@run_cleanup_removes _ h _ I)).
  cbn. lia.
Qed.

End EventSequences.

(** ** A second run of the effect *)

Section Remount.

Context {num : Type} {NUM : JSNumber num}.

Local Open Scope gl_scope.
Local Open Scope string_scope.

Lemma dispatch_all_last :
  forall h es e (w : World num),
    listeners w = [("mousemove", h)] ->
    world (dispatch_all (es ++ [e])%list w) =
    with_topVertex
      (topVertexRef (world (handleMouseMove h (fst e) (snd e) w))) w.
Proof.
  intros h es e; induction es as [ | e0 rest IH]; intros w L.
  - cbn [app dispatch_all]. rewrite bind_world.
    rewrite (@dispatch_heard _ _ h e w L). reflexivity.
  - cbn [app dispatch_all]. rewrite bind_world.
    rewrite (@dispatch_heard _ _ h e0 w L).
    rewrite IH; [reflexivity | exact L].
Qed.

(** X12. When the effect runs again on the same instance, after a mount that
    went through, pointer events ending with [e] and the cleanup: the second
    run starts from the position of [e], not from (0, 1), since the ref
    outlives the effect; it draws its first frame there, and leaves exactly
    one listener, a new function object. *)
Theorem remount_redraws_last_position :
  forall canvas gl vertexShader fragmentShader shaderProgram during e
         (w : World num),
    canvas_getContext canvas "webgl" = Some gl ->
    Succeeds gl vertexShader fragmentShader shaderProgram ->
    listeners w = [] ->
    let h1 := handler_of canvas gl shaderProgram (closures w) in
    let h2 := handler_of canvas gl shaderProgram (S (closures w)) in
    let v := topVertexRef (world (handleMouseMove h1 (fst e) (snd e) w)) in
    let w1 := {| topVertexRef := v; listeners := [];
                 closures := S (closures w) |} in
    let r := remounted (Some canvas) (during ++ [e])%list w in
    value r = cleanup h2 /\
    world r = {| topVertexRef := v; listeners := [("mousemove", h2)];
                 closures := S (S (closures w)) |} /\
    (exists earlier,
       trace r = (earlier ++ trace (effect (Some canvas) w1))%list) /\
    filter is_uniform2f (trace (effect (Some canvas) w1)) =
      [uniform2f (uniformLocations_topVertex (h_programInfo h2))
                 (x v) (y v)].
Proof.
  intros canvas gl vs fs p es e w C Sc L h1 h2 v w1 r.
  assert (W1 : world ((c <- mounted (Some canvas) (es ++ [e])%list ;;
                       run_cleanup c) w) = w1 /\
               value (mounted (Some canvas) (es ++ [e])%list w) = cleanup h1).
  { rewrite bind_world, mounted_value, mounted_world.
    rewrite (@effect_succeeds _ _ canvas gl vs fs p w C Sc L).
    cbn [value world fst snd].
    fold h1.
    rewrite (@dispatch_all_last h1 es e
               {| topVertexRef := topVertexRef w;
                  listeners := [("mousemove", h1)];
                  closures := S (closures w) |} eq_refl).
    split; [ | reflexivity].
    cbn. unfold same_listener; cbn. rewrite Nat.eqb_refl. reflexivity. }
  destruct W1 as [W1 V1].
  assert (E2 := @effect_succeeds _ _ canvas gl vs fs p w1 C Sc eq_refl).
  cbn zeta in E2.
  subst r. unfold remounted.
  rewrite bind_value, bind_world, bind_trace.
  rewrite !bind_value, !bind_world, !bind_trace.
  rewrite bind_world in W1. rewrite W1.
  split; [rewrite E2; reflexivity | ].
  split; [rewrite E2; reflexivity | ].
  split; [ | rewrite E2; reflexivity].
  eexists. rewrite app_assoc. reflexivity.
Qed.

End Remount.

(** ** What is drawn *)

Section Drawn.

Context {num : Type} {NUM : JSNumber num}.

(** X17. The three vertices of a frame.  In a number system where [1 == 1] holds
    and [-1 == 1] does not, the draw call of [drawScene], reading the buffer
    that [initBuffers] uploaded through the layout that [drawScene]
    describes, hands on the uniform as the first position and the two bottom
    corners unchanged: of the uploaded geometry only the first vertex is the
    top vertex for the shader. *)
Theorem drawn_triangle :
  forall ux uy : num,
    num_eq (lit 1) (lit 1) = true ->
    num_eq (lit (-1)) (lit 1) = false ->
    Pipeline.clip_positions positions 0 3 ux uy =
    [ {| GLSL.x := ux; GLSL.y := uy; GLSL.z := lit 0; GLSL.w := lit 1 |};
      {| GLSL.x := lit (-1); GLSL.y := lit (-1);
         GLSL.z := lit 0; GLSL.w := lit 1 |};
      {| GLSL.x := lit 1; GLSL.y := lit (-1);
         GLSL.z := lit 0; GLSL.w := lit 1 |} ].
Proof.
  intros ux uy E1 E2.
  unfold Pipeline.clip_positions, positions; cbn.
  unfold GLSL.vertex_main, GLSL.vec4_of; cbn.
  rewrite E1, E2. reflexivity.
Qed.

End Drawn.

(** ** Doubles *)

Section Doubles.

Local Open Scope string_scope.

Lemma not_finite_of_spec :
  forall f : float,
    Prim2SF f = S754_nan \/ (exists s, Prim2SF f = S754_infinity s) ->
    PrimFloat.is_finite f = false.
Proof.
  intros f H. unfold PrimFloat.is_finite, PrimFloat.is_nan,
    PrimFloat.is_infinity.
  rewrite !FloatAxioms.eqb_spec, abs_spec.
  destruct H as [-> | [s ->] ]; [reflexivity | ].
  destruct s; reflexivity.
Qed.

Lemma divided_by_zero :
  forall d : float,
    let q := PrimFloat.sub (PrimFloat.mul (PrimFloat.div d (f64_lit 0))
                                          (f64_lit 2)) (f64_lit 1) in
    Prim2SF q = S754_nan \/ (exists s, Prim2SF q = S754_infinity s).
Proof.
  intros d q; subst q.
  rewrite sub_spec, mul_spec, div_spec.
  change (Prim2SF (f64_lit 0)) with (S754_zero false).
  replace (Prim2SF (f64_lit 2)) with (S754_finite false 4503599627370496 (-51))
    by (vm_compute; reflexivity).
  replace (Prim2SF (f64_lit 1)) with (S754_finite false 4503599627370496 (-52))
    by (vm_compute; reflexivity).
  destruct (Prim2SF d) as [s | s | | s m e]; cbn;
    first [left; reflexivity | right; eexists; reflexivity].
Qed.

Lemma one_minus_divided_by_zero :
  forall d : float,
    let q := PrimFloat.sub (f64_lit 1)
               (PrimFloat.mul (PrimFloat.div d (f64_lit 0)) (f64_lit 2)) in
    Prim2SF q = S754_nan \/ (exists s, Prim2SF q = S754_infinity s).
Proof.
  intros d q; subst q.
  rewrite sub_spec, mul_spec, div_spec.
  change (Prim2SF (f64_lit 0)) with (S754_zero false).
  replace (Prim2SF (f64_lit 2)) with (S754_finite false 4503599627370496 (-51))
    by (vm_compute; reflexivity).
  replace (Prim2SF (f64_lit 1)) with (S754_finite false 4503599627370496 (-52))
    by (vm_compute; reflexivity).
  destruct (Prim2SF d) as [s | s | | s m e]; cbn;
    first [left; reflexivity | right; eexists; reflexivity].
Qed.

(** X16. The handler does not guard the division.  On doubles, over a canvas of
    width 0 every pointer event leaves an x that is not a finite number
    (NaN or an infinity), and over a canvas of height 0 a y that is not;
    that value is what the renderer then sets the uniform to. *)
Theorem empty_canvas_gives_no_number :
  forall (h : Handler) (event : MouseEvent float) (rect : DOMRect float)
         (w : World float),
    let r := handleMouseMove h event rect w in
    let v := topVertexRef (world r) in
    (width (h_canvas h) = 0%Z -> PrimFloat.is_finite (x v) = false) /\
    (height (h_canvas h) = 0%Z -> PrimFloat.is_finite (y v) = false) /\
    In (uniform2f (uniformLocations_topVertex (h_programInfo h)) (x v) (y v))
       (trace r).
Proof.
  intros h event rect w r v. split; [ | split].
  - intro E. apply not_finite_of_spec.
    subst v r. cbn. rewrite E. apply divided_by_zero.
  - intro E. apply not_finite_of_spec.
    subst v r. cbn. rewrite E. apply one_minus_divided_by_zero.
  - subst v r. find_call.
Qed.

(** X15. On the 640 by 480 canvas of the component, in double arithmetic, the
    whole-pixel offsets keep their order: one pixel further right gives a
    strictly larger x and one pixel further down a strictly smaller y, so no
    two pixel columns or rows give the same coordinate. *)
Theorem binary64_pixels_keep_order :
  forall (px py : Z) (w : World float),
    (0 <= px < 640)%Z -> (0 <= py < 480)%Z ->
    let at_offset (px py : Z) :=
      let e := Sample.pointer (10 + px)%Z (20 + py)%Z in
      topVertexRef (world (handleMouseMove Sample.handler_ok
                                           (fst e) (snd e) w)) in
    PrimFloat.ltb (x (at_offset px py)) (x (at_offset (px + 1)%Z py)) = true /\
    PrimFloat.ltb (y (at_offset px (py + 1)%Z)) (y (at_offset px py)) = true.
Proof.
  intros px py w Hx Hy at_offset.
  pose (tx := fun px : Z =>
    PrimFloat.sub (PrimFloat.mul (PrimFloat.div
       (PrimFloat.sub (f64_lit (10 + px)) (f64_lit 10))
       (f64_lit 640)) (f64_lit 2)) (f64_lit 1)).
  pose (ty := fun py : Z =>
    PrimFloat.sub (f64_lit 1) (PrimFloat.mul (PrimFloat.div
       (PrimFloat.sub (f64_lit (20 + py)) (f64_lit 20))
       (f64_lit 480)) (f64_lit 2))).
  assert (Ux : Sample.upto 639 (fun px => PrimFloat.ltb (tx px) (tx (px + 1)%Z))
               = true) by (vm_compute; reflexivity).
  assert (Uy : Sample.upto 479 (fun py => PrimFloat.ltb (ty (py + 1)%Z) (ty py))
               = true) by (vm_compute; reflexivity).
  split.
  - apply (@upto_true _ 639 Ux px). lia.
  - apply (@upto_true _ 479 Uy py). lia.
Qed.

End Doubles.

(** ** The ref has one writer *)

Section OneWriter.

Context {num : Type} {NUM : JSNumber num}.

Local Open Scope gl_scope.
Local Open Scope string_scope.

(** X8. Neither the effect nor its cleanup writes the top-vertex ref, whatever
    the driver answers and whatever is registered: after a mount, failed or
    not, and after an unmount, the ref holds what it held.  Only a run of the
    handler changes it. *)
Theorem effect_and_cleanup_keep_topVertex :
  forall canvasRef_current c (w : World num),
    topVertexRef (world (effect canvasRef_current w)) = topVertexRef w /\
    topVertexRef (world (run_cleanup c w)) = topVertexRef w /\
    (forall events, listeners w = [] ->
       topVertexRef (world (dispatch_all events w)) = topVertexRef w).
Proof.
  intros cr c w. split; [ | split].
  - unfold_effect. destruct cr as [canvas | ]; cbn; [ | reflexivity].
    repeat answer; try destruct (existsb _ _); reflexivity.
  - destruct c; reflexivity.
  - intros es L. rewrite (@dispatch_all_unheard _ _ es w L). reflexivity.
Qed.

End OneWriter.

(** ** Concrete runs for the properties above *)

Section MoreRuns.

Local Open Scope string_scope.

Lemma loadShader_outcome_witness :
  let r := loadShader Sample.gl_rejecting VERTEX_SHADER GLSL.vsSource
                      (initial_world (num := float)) in
  gl_getShaderParameter Sample.gl_rejecting (ShaderHandle 1) COMPILE_STATUS
    = false /\
  exists before,
    trace r =
      (before
       ++ [console_error [Some "An error occurred compiling the shaders:";
                          Some "ERROR: vertex"];
           deleteShader (ShaderHandle 1)])%list /\
    forallb (fun c => negb (is_deletion c || is_console_error c)) before
      = true.
Proof.
  exact (proj1 (proj2 (proj2
           (@loadShader_outcome float Sample.gl_rejecting
              VERTEX_SHADER GLSL.vsSource initial_world)))
           (ShaderHandle 1) eq_refl eq_refl).
Defined.

Lemma link_failure_releases_nothing_witness :
  never_releases
    (trace (initShaderProgram Faulty.gl_unlinked GLSL.vsSource GLSL.fsSource
                              (initial_world (num := float)))) = true.
Proof.
  exact (proj2 (@link_failure_releases_nothing float
                  Faulty.gl_unlinked GLSL.vsSource GLSL.fsSource
                  (ShaderHandle 1) (ShaderHandle 2) (ProgramHandle 3)
                  initial_world eq_refl eq_refl eq_refl eq_refl eq_refl
                  eq_refl)).
Defined.

Lemma initShaderProgram_outcome_witness :
  filter is_console_error
    (trace (initShaderProgram Faulty.gl_lost GLSL.vsSource GLSL.fsSource
                              (initial_world (num := float)))) = [].
Proof.
  apply (proj2 (proj2 (@initShaderProgram_outcome float
                         Faulty.gl_lost GLSL.vsSource GLSL.fsSource
                         initial_world))).
  - reflexivity.
  - intros shader H; cbn in H.
    repeat (destruct H as [H | H]; [discriminate H | ]). destruct H.
  - intros prog H; cbn in H.
    repeat (destruct H as [H | H]; [discriminate H | ]). destruct H.
Defined.

Lemma logged_diagnostic_is_a_failure_witness :
  InitFailure Sample.canvas_without_webgl [Some "WebGL isn't available"].
Proof.
  apply (@logged_diagnostic_is_a_failure float binary64
           Sample.canvas_without_webgl _ initial_world).
  cbn. right; left; reflexivity.
Defined.

Lemma mount_succeeds_iff_witness :
  exists h,
    value (effect (Some (rendered_canvas (fun _ => Some Faulty.gl_bare)))
                  (initial_world (num := float))) = cleanup h.
Proof.
  apply (proj2 (@mount_succeeds_iff float binary64
                  (Some (rendered_canvas (fun _ => Some Faulty.gl_bare)))
                  initial_world)).
  exists (rendered_canvas (fun _ => Some Faulty.gl_bare)), Faulty.gl_bare,
    (ShaderHandle 1), (ShaderHandle 2), (ProgramHandle 3).
  split; [reflexivity | split; [reflexivity | ] ].
  split; reflexivity.
Defined.

Lemma successful_mount_calls_witness :
  let t := trace (effect (Some (rendered_canvas
                                  (fun _ => Some Faulty.gl_bare)))
                         (initial_world (num := float))) in
  In (bindBuffer ARRAY_BUFFER None) t /\
  In (vertexAttribPointer (-1) 2 FLOAT false 0 0) t /\
  In (uniform2f None (lit 0) (lit 1)) t /\
  In (drawArrays TRIANGLES 0 3) t.
Proof.
  intro t; subst t.
  rewrite (@successful_mount_calls float binary64
             (rendered_canvas (fun _ => Some Faulty.gl_bare)) Faulty.gl_bare
             (ShaderHandle 1) (ShaderHandle 2) (ProgramHandle 3)
             initial_world eq_refl
             (@Build_Succeeds Faulty.gl_bare (ShaderHandle 1) (ShaderHandle 2)
                (ProgramHandle 3) eq_refl eq_refl eq_refl eq_refl eq_refl
                eq_refl)).
  repeat split; find_call.
Defined.

Lemma failed_mount_is_final_witness :
  lifecycle (Some Sample.canvas_rejecting) Sample.moves
            [Sample.pointer 10 20] (initial_world (num := float)) =
  (tt, initial_world,
   trace (effect (Some Sample.canvas_rejecting) initial_world)).
Proof.
  exact (@failed_mount_is_final float binary64 (Some Sample.canvas_rejecting)
           Sample.moves [Sample.pointer 10 20] initial_world eq_refl eq_refl).
Defined.

(** The state of the sample instance once mounted. *)
Lemma sample_mounted :
  listeners (world (effect (Some Sample.canvas_ok)
                           (initial_world (num := float)))) =
  [("mousemove", Sample.handler_ok)].
Proof. reflexivity. Qed.

Lemma one_frame_per_event_witness :
  let w := world (effect (Some Sample.canvas_ok)
                         (initial_world (num := float))) in
  filter is_uniform2f (trace (dispatch_all Sample.moves w)) =
  [uniform2f (Some (UniformHandle 4)) 0%float 1%float;
   uniform2f (Some (UniformHandle 4)) 1%float (-1)%float].
Proof.
  intro w.
  exact (proj1 (@one_frame_per_event float binary64 Sample.handler_ok
                  Sample.moves w sample_mounted)).
Defined.

Lemma last_event_wins_witness :
  let w := world (effect (Some Sample.canvas_ok)
                         (initial_world (num := float))) in
  topVertexRef (world (dispatch_all ([Sample.pointer 330 20]
                                     ++ [Sample.pointer 650 500])%list w)) =
  {| x := 1%float; y := (-1)%float |}.
Proof.
  intro w.
  exact (proj1 (@last_event_wins float binary64 Sample.handler_ok
                  [Sample.pointer 330 20] (Sample.pointer 650 500) w
                  sample_mounted)).
Defined.

Lemma draws_over_a_life_witness :
  List.length
    (filter is_drawArrays
       (trace (lifecycle (Some Sample.canvas_ok) Sample.moves
                         [Sample.pointer 10 20]
                         (initial_world (num := float))))) = 3%nat.
Proof.
  exact (@draws_over_a_life float binary64 (Some Sample.canvas_ok)
           Sample.moves [Sample.pointer 10 20] Sample.handler_ok
           initial_world eq_refl eq_refl).
Defined.

Lemma remount_redraws_last_position_witness :
  let r := remounted (Some Sample.canvas_ok)
                     ([Sample.pointer 330 20] ++ [Sample.pointer 650 500])%list
                     (initial_world (num := float)) in
  world r =
  {| topVertexRef := {| x := 1%float; y := (-1)%float |};
     listeners := [("mousemove",
                    handler_of Sample.canvas_ok Sample.gl_ok
                               (ProgramHandle 3) 1)];
     closures := 2 |}.
Proof.
  exact (proj1 (proj2
    (@remount_redraws_last_position float binary64 Sample.canvas_ok
       Sample.gl_ok (ShaderHandle 1) (ShaderHandle 2) (ProgramHandle 3)
       [Sample.pointer 330 20] (Sample.pointer 650 500) initial_world
       eq_refl
       (@Build_Succeeds Sample.gl_ok (ShaderHandle 1) (ShaderHandle 2)
          (ProgramHandle 3) eq_refl eq_refl eq_refl eq_refl eq_refl eq_refl)
       eq_refl))).
Defined.

Lemma drawn_triangle_witness :
  Pipeline.clip_positions (positions (num := float)) 0 3
                          0.25%float (-0.5)%float =
  [ {| GLSL.x := 0.25%float; GLSL.y := (-0.5)%float;
       GLSL.z := lit 0; GLSL.w := lit 1 |};
    {| GLSL.x := lit (-1); GLSL.y := lit (-1);
       GLSL.z := lit 0; GLSL.w := lit 1 |};
    {| GLSL.x := lit 1; GLSL.y := lit (-1);
       GLSL.z := lit 0; GLSL.w := lit 1 |} ].
Proof.
  exact (@drawn_triangle float binary64 0.25%float (-0.5)%float
           eq_refl eq_refl).
Defined.

Lemma empty_canvas_gives_no_number_witness :
  let h := {| closure := 0;
              h_canvas := {| width := 0; height := 0;
                             canvas_getContext := fun _ => None |};
              h_gl := Sample.gl_ok;
              h_programInfo := h_programInfo Sample.handler_ok;
              h_buffers := h_buffers Sample.handler_ok |} in
  let v := topVertexRef (world (handleMouseMove h
                                  (fst (Sample.pointer 330 20))
                                  (snd (Sample.pointer 330 20))
                                  (initial_world (num := float)))) in
  PrimFloat.is_finite (x v) = false /\ PrimFloat.is_finite (y v) = false.
Proof.
  intros h v.
  pose proof (@empty_canvas_gives_no_number h
                (fst (Sample.pointer 330 20)) (snd (Sample.pointer 330 20))
                initial_world) as T.
  exact (conj (proj1 T eq_refl) (proj1 (proj2 T) eq_refl)).
Defined.

Lemma binary64_pixels_keep_order_witness :
  let at_offset (px py : Z) :=
    let e := Sample.pointer (10 + px)%Z (20 + py)%Z in
    topVertexRef (world (handleMouseMove Sample.handler_ok (fst e) (snd e)
                                         (initial_world (num := float)))) in
  PrimFloat.ltb (x (at_offset 319%Z 0%Z)) (x (at_offset (319 + 1)%Z 0%Z))
    = true /\
  PrimFloat.ltb (y (at_offset 319%Z (0 + 1)%Z)) (y (at_offset 319%Z 0%Z))
    = true.
Proof.
  apply (@binary64_pixels_keep_order 319 0 initial_world); lia.
Defined.

Lemma binary64_range_on_pixels_witness :
  let e := Sample.pointer (10 + 640)%Z (20 + 0)%Z in
  let v := topVertexRef (world (handleMouseMove Sample.handler_ok
                                  (fst e) (snd e)
                                  (initial_world (num := float)))) in
  (PrimFloat.leb (-1) (x v) && PrimFloat.leb (x v) 1 = true /\
   PrimFloat.leb (-1) (y v) && PrimFloat.leb (y v) 1 = true)%float.
Proof.
  apply (@binary64_range_on_pixels 640 0 initial_world); lia.
Defined.

Lemma effect_and_cleanup_keep_topVertex_witness :
  topVertexRef (world (dispatch_all Sample.moves
                                    (initial_world (num := float)))) =
  {| x := lit 0; y := lit 1 |}.
Proof.
  exact (proj2 (proj2 (@effect_and_cleanup_keep_topVertex float binary64
                         None no_cleanup initial_world))
           Sample.moves eq_refl).
Defined.

End MoreRuns.
